(** * Cancel-fulfillment admin route: orchestration contract

    A shallow embedding of
    [packages/medusa/src/api/routes/admin/orders/cancel-fulfillment.ts]:
    the route handler (the module's default export) and the exported helper
    [adjustInventoryForCancelledFulfillment].

    The handler is glue over collaborators that live elsewhere (the order,
    fulfillment and product-variant-inventory services, the unit-of-work
    manager, [cleanResponseData], [promiseAll]).  Their behaviour is a
    parameter of the development: each service method is an arbitrary
    function on an abstract database [World] that returns a value or throws.
    What is verified is what the handler does with them: which calls it makes,
    with which arguments, bound to which manager, in which order, and what it
    returns or throws.

    The inventory adjustments are started together and awaited together.
    The order in which they are started is the order of the items; the
    order in which they complete is not fixed by the code and is a
    parameter as well ([completion]): every started call completes once, as
    one step on the database, in any order. *)

From Stdlib Require Import String List ZArith Bool Lia Permutation.
Import ListNotations.
Local Open Scope list_scope.

(** ** JavaScript values the handler inspects *)

Module Js.

(** A field typed [T | null] that may also be absent at run time. *)
Inductive Nullable (T : Type) : Type :=
| undefined : Nullable T
| null : Nullable T
| value : T -> Nullable T.
Arguments undefined {T}.
Arguments null {T}.
Arguments value {T} _.

(** Truthiness of a string-or-nothing: [undefined], [null] and the empty
    string are falsy, every other string is truthy. *)
Definition truthy (v : Nullable string) : bool :=
  match v with
  | value s => negb (String.eqb s EmptyString)
  | _ => false
  end.

(** [v !== s] where [s] is a string. *)
Definition strict_neq (v : Nullable string) (s : string) : bool :=
  match v with
  | value s' => negb (String.eqb s' s)
  | _ => true
  end.

(** Truthiness of an object-or-nothing (an object is always truthy). *)
Definition truthy_obj {T} (o : option T) : bool :=
  match o with Some _ => true | None => false end.

End Js.
Import Js.

(** ** Errors *)

(** [MedusaError.Types], as far as the route and its services use them. *)
Inductive MedusaErrorTypes : Type :=
| DB_ERROR | INVALID_ARGUMENT | INVALID_DATA | UNAUTHORIZED
| NOT_FOUND | NOT_ALLOWED | UNEXPECTED_STATE | CONFLICT.

(** Whatever can be thrown: a [MedusaError] or any other value. *)
Inductive exn : Type :=
| MedusaError (type : MedusaErrorTypes) (message : string)
| Thrown (what : string).

Inductive Outcome (A : Type) : Type :=
| Ok : A -> Outcome A
| Throw : exn -> Outcome A.
Arguments Ok {A} _.
Arguments Throw {A} _.

(** ** Promises that complete in any order

    Code that starts several asynchronous calls and then awaits them all
    fixes the order in which the calls are started, not the order in which
    they complete.  A started call is the work [S -> Outcome T * S] it still
    has to do on the state; [settle_in_order tasks order] lets the tasks
    complete in the order [order] lists their positions, and tags each
    outcome with the position of its task. *)

Fixpoint settle_in_order {S T : Type} (tasks : list (S -> Outcome T * S))
    (order : list nat) (s : S) : list (nat * Outcome T) * S :=
  match order with
  | [] => ([], s)
  | k :: order' =>
      match nth_error tasks k with
      | Some task =>
          let (r, s1) := task s in
          let (rs, s2) := settle_in_order tasks order' s1 in
          ((k, r) :: rs, s2)
      | None => settle_in_order tasks order' s
      end
  end.

Fixpoint insert_by_position {X : Type} (p : nat * X) (l : list (nat * X))
    : list (nat * X) :=
  match l with
  | [] => [p]
  | q :: l' =>
      if fst p <=? fst q then p :: l else q :: insert_by_position p l'
  end.

Fixpoint sort_by_position {X : Type} (l : list (nat * X))
    : list (nat * X) :=
  match l with
  | [] => []
  | p :: l' => insert_by_position p (sort_by_position l')
  end.

(** The outcomes as the awaiting code sees them: in the positions of the
    promises, whatever the order they settled in. *)
Definition by_position {X : Type} (rs : list (nat * X)) : list X :=
  map snd (sort_by_position rs).

(** ** Entities *)

(** [LineItem], the order item a fulfillment item refers to. *)
Record LineItem : Type := {
  variant_id : Nullable string
}.

(** [FulfillmentItem]: the callback of the helper destructures
    [{ item, quantity }]. *)
Record FulfillmentItem : Type := {
  item : LineItem;
  quantity : Z
}.

Record Fulfillment : Type := {
  order_id : Nullable string;
  location_id : Nullable string;
  items : list FulfillmentItem
}.

(** The manager a service instance is bound to: the container's own, or the
    one handed to the callback of [manager.transaction]. *)
Inductive EntityManager : Type :=
| DefaultManager
| TransactionManager.

(** ** What the file imports but does not define *)

Class Platform : Type := {
  (** contents of the database *)
  World : Type;
  (** [Order], as [retrieveWithTotals] returns it *)
  Order : Type;
  (** [req.retrieveConfig] and [req.includes] *)
  FindConfig : Type;
  Includes : Type;
  (** [IInventoryService]: only tested for presence *)
  IInventoryService : Type;
  (** result of the response-cleaning step *)
  ResponseData : Type;
  cleanResponseData : Order -> list string -> ResponseData;
  (** [promiseAll] of [@medusajs/utils], on settled promises *)
  promiseAll : forall T : Type, list (Outcome T) -> Outcome (list T);
  (** the order in which [n] calls that are pending together complete:
      each of them completes, once, in an order the code does not fix *)
  completion : nat -> list nat;
  completion_permutes : forall n : nat, Permutation (completion n) (seq 0 n)
}.

Section Model.

Context {P : Platform}.

(** *** Observable calls *)

Inductive Call : Type :=
| FulfillmentRetrieve (m : EntityManager) (id : string)
    (relations : option (list string))
| OrderCancelFulfillment (m : EntityManager) (fulfillment_id : string)
| AdjustInventory (m : EntityManager) (variant : Nullable string)
    (location : Nullable string) (qty : Z)
| OrderRetrieveWithTotals (m : EntityManager) (id : string)
    (config : FindConfig) (includes : Includes)
| TransactionBegin
| TransactionCommit
| TransactionRollback
| ResJson (body : list (string * ResponseData)).

(** *** The store a request runs against

    [committed] is the database as other connections see it; [pending] is
    the working copy of the open transaction, if any; [trace] lists the
    calls made so far, oldest first. *)
Record Store : Type := {
  committed : World;
  pending : option World;
  trace : list Call
}.

Definition initial (w : World) : Store :=
  {| committed := w; pending := None; trace := [] |}.

(** *** Awaited computations: state passing with exceptions *)

Definition M (A : Type) : Type := Store -> Outcome A * Store.

Definition ret {A} (a : A) : M A := fun st => (Ok a, st).

Definition throw {A} (e : exn) : M A := fun st => (Throw e, st).

Definition bind {A B} (c : M A) (k : A -> M B) : M B :=
  fun st =>
    match c st with
    | (Ok a, st') => k a st'
    | (Throw e, st') => (Throw e, st')
    end.

Definition record (c : Call) : M unit :=
  fun st =>
    (Ok tt, {| committed := committed st;
               pending := pending st;
               trace := trace st ++ [c] |}).

(** A service method bound to manager [m]: it reads and writes the working
    copy of the transaction when bound to the transaction's manager, the
    committed database otherwise. *)
Definition on_manager {A} (m : EntityManager)
    (op : World -> Outcome A * World) : M A :=
  fun st =>
    match m, pending st with
    | TransactionManager, Some w =>
        let (r, w') := op w in
        (r, {| committed := committed st;
               pending := Some w';
               trace := trace st |})
    | TransactionManager, None =>
        (Throw (Thrown "QueryRunnerAlreadyReleasedError"), st)
    | DefaultManager, _ =>
        let (r, w') := op (committed st) in
        (r, {| committed := w';
               pending := pending st;
               trace := trace st |})
    end.

End Model.

Declare Scope route_scope.
Delimit Scope route_scope with route.
Notation "x <- c ;; k" := (bind c (fun x => k))
  (at level 61, c at next level, right associativity) : route_scope.
Notation "c ;;; k" := (bind c (fun _ => k))
  (at level 61, right associativity) : route_scope.
Local Open Scope route_scope.

Section Services.

Context {P : Platform}.

(** *** Service layer

    The methods the route calls, as functions on the database.  A service
    instance is its methods together with the manager it is bound to;
    [withTransaction] re-binds it, as [TransactionBaseService] does. *)

Record OrderServiceMethods : Type := {
  cancelFulfillment : string -> World -> Outcome Order * World;
  retrieveWithTotals :
    string -> FindConfig -> Includes -> World -> Outcome Order * World
}.

Record FulfillmentServiceMethods : Type := {
  retrieve :
    string -> option (list string) -> World -> Outcome Fulfillment * World
}.

Record ProductVariantInventoryServiceMethods : Type := {
  adjustInventory :
    Nullable string -> Nullable string -> Z -> World -> Outcome unit * World
}.

Record Service (methods : Type) : Type := {
  impl : methods;
  bound_to : EntityManager
}.
Arguments impl {methods} _.
Arguments bound_to {methods} _.

Definition withTransaction {methods} (m : EntityManager)
    (s : Service methods) : Service methods :=
  {| impl := impl s; bound_to := m |}.

Definition OrderService := Service OrderServiceMethods.
Definition FulfillmentService := Service FulfillmentServiceMethods.
Definition ProductVariantInventoryService :=
  Service ProductVariantInventoryServiceMethods.

Definition call_cancelFulfillment (s : OrderService)
    (fulfillment_id : string) : M Order :=
  record (OrderCancelFulfillment (bound_to s) fulfillment_id) ;;;
  on_manager (bound_to s) (cancelFulfillment (impl s) fulfillment_id).

Definition call_retrieveWithTotals (s : OrderService) (id : string)
    (config : FindConfig) (includes : Includes) : M Order :=
  record (OrderRetrieveWithTotals (bound_to s) id config includes) ;;;
  on_manager (bound_to s) (retrieveWithTotals (impl s) id config includes).

Definition call_retrieve (s : FulfillmentService) (id : string)
    (relations : option (list string)) : M Fulfillment :=
  record (FulfillmentRetrieve (bound_to s) id relations) ;;;
  on_manager (bound_to s) (retrieve (impl s) id relations).

(** A call that has been started and is not awaited yet: the work it
    still has to do when it completes. *)
Definition Promise (T : Type) : Type := M T.

(** [adjustInventory] is called where other calls may be pending, so the
    call and its completion are kept apart: calling records the call and
    hands back the promise. *)
Definition call_adjustInventory (s : ProductVariantInventoryService)
    (variant location : Nullable string) (qty : Z) : M (Promise unit) :=
  record (AdjustInventory (bound_to s) variant location qty) ;;;
  ret (on_manager (bound_to s)
         (adjustInventory (impl s) variant location qty)).

(** *** Request and container *)

(** [req.scope]: what the names the handler resolves are registered to.
    The inventory service is an optional module and may resolve to
    nothing. *)
Record Container : Type := {
  orderService : OrderServiceMethods;
  fulfillmentService : FulfillmentServiceMethods;
  productVariantInventoryService : ProductVariantInventoryServiceMethods;
  inventoryService : option IInventoryService
}.

(** A service resolved from the container is bound to the container's
    manager. *)
Definition resolve {methods} (m : methods) : Service methods :=
  {| impl := m; bound_to := DefaultManager |}.

Record Request : Type := {
  params_id : string;
  params_fulfillment_id : string;
  scope : Container;
  retrieveConfig : FindConfig;
  includes : Includes
}.

(** [res.json(body)] *)
Definition res_json (body : list (string * ResponseData)) : M unit :=
  record (ResJson body).

(** *** Unit of work *)

(** Modelled from the spec: [EntityManager.transaction] is the ORM's, not
    this file's.  The spec delegates atomicity to it (a scoped database
    transaction ensuring atomicity across the enclosed operations; any
    failure inside is expected to roll back the entire transaction).  The
    callback runs once against a working copy of the database through the
    transaction's manager; when the callback returns the copy is
    committed, when it throws the copy is dropped and the same value is
    thrown again. *)
Definition transaction {A} (manager : EntityManager)
    (runInTransaction : EntityManager -> M A) : M A :=
  fun st =>
    let st0 := {| committed := committed st;
                  pending := Some (committed st);
                  trace := trace st ++ [TransactionBegin] |} in
    match runInTransaction TransactionManager st0 with
    | (Ok a, st1) =>
        (Ok a, {| committed := match pending st1 with
                               | Some w => w
                               | None => committed st1
                               end;
                  pending := None;
                  trace := trace st1 ++ [TransactionCommit] |})
    | (Throw e, st1) =>
        (Throw e, {| committed := committed st1;
                     pending := None;
                     trace := trace st1 ++ [TransactionRollback] |})
    end.

(** *** Promises

    An [async] function runs, where it is called, up to its first [await]
    and hands back a promise; it never throws to its caller.  Its body is
    given as that first part, which returns what is left to do.  The calls
    of a fan-out are therefore started in array order, and complete, each
    as one step on the database, in the order [completion] gives. *)
Definition async {A} (body : M (Promise A)) : M (Promise A) :=
  fun st =>
    match body st with
    | (Ok p, st') => (Ok p, st')
    | (Throw e, st') => (Ok (throw e), st')
    end.

(** Awaiting something settled: its value, or its reason thrown. *)
Definition await {A} (p : Outcome A) : M A :=
  fun st => (p, st).

(** Waiting until every promise of the list has settled. *)
Definition all_settled {A} (promises : list (Promise A))
    : M (list (Outcome A)) :=
  fun st =>
    let (rs, st') :=
      settle_in_order promises (completion (length promises)) st in
    (Ok (by_position rs), st').

(** [Array.prototype.map] with an effectful callback. *)
Fixpoint Array_map {A B} (f : A -> M B) (l : list A) : M (list B) :=
  match l with
  | [] => ret []
  | a :: l' =>
      b <- f a ;;
      bs <- Array_map f l' ;;
      ret (b :: bs)
  end.

(** *** [adjustInventoryForCancelledFulfillment] *)

Record AdjustContext : Type := {
  ctx_productVariantInventoryService : ProductVariantInventoryService
}.

Definition adjustInventoryForCancelledFulfillment
    (fulfillment : Fulfillment) (context : AdjustContext) : M unit :=
  let productVariantInventoryService :=
    ctx_productVariantInventoryService context in
  promises <-
    Array_map
      (fun fi : FulfillmentItem =>
         async
           (if truthy (variant_id (item fi))
            then
              call_adjustInventory productVariantInventoryService
                (variant_id (item fi))
                (location_id fulfillment)
                (quantity fi)
            else ret (ret tt)))
      (items fulfillment) ;;
  settled <- all_settled promises ;;
  await (promiseAll unit settled) ;;;
  ret tt.

(** *** The route handler (default export) *)

Definition not_found_message (fulfillment_id id : string) : string :=
  ("no fulfillment was found with the id: " ++ fulfillment_id
     ++ " related to order: " ++ id)%string.

(** The callback given to [manager.transaction]. *)
Definition in_transaction (req : Request)
    (transactionManager : EntityManager) : M unit :=
  let fulfillment_id := params_fulfillment_id req in
  let orderService := resolve (orderService (scope req)) in
  let inventoryService := inventoryService (scope req) in
  let productVariantInventoryService :=
    resolve (productVariantInventoryService (scope req)) in
  let fulfillmentService := resolve (fulfillmentService (scope req)) in
  call_cancelFulfillment
    (withTransaction transactionManager orderService) fulfillment_id ;;;
  fulfillment <-
    call_retrieve (withTransaction transactionManager fulfillmentService)
      fulfillment_id (Some ["items"; "items.item"]%string) ;;
  if truthy (location_id fulfillment) && truthy_obj inventoryService
  then
    adjustInventoryForCancelledFulfillment fulfillment
      {| ctx_productVariantInventoryService :=
           withTransaction transactionManager
             productVariantInventoryService |}
  else ret tt.

Definition handler (req : Request) : M unit :=
  let id := params_id req in
  let fulfillment_id := params_fulfillment_id req in
  let orderService := resolve (orderService (scope req)) in
  let fulfillmentService := resolve (fulfillmentService (scope req)) in
  fulfillment <- call_retrieve fulfillmentService fulfillment_id None ;;
  if strict_neq (order_id fulfillment) id
  then throw (MedusaError NOT_FOUND (not_found_message fulfillment_id id))
  else
    let manager := DefaultManager in
    transaction manager (in_transaction req) ;;;
    order <-
      call_retrieveWithTotals orderService id
        (retrieveConfig req) (includes req) ;;
    res_json [("order"%string, cleanResponseData order [])].

End Services.

Arguments impl {methods} _.
Arguments bound_to {methods} _.

Section Expected.

Context {P : Platform}.

(** *** Vocabulary for stating what a run did *)

(** The guard of the helper's callback: [if (item.variant_id)]. *)
Definition has_variant (fi : FulfillmentItem) : bool :=
  truthy (variant_id (item fi)).

(** The guard of the handler:
    [if (fulfillment.location_id && inventoryService)]. *)
Definition adjusts_inventory (req : Request) (f : Fulfillment) : bool :=
  truthy (location_id f) && truthy_obj (inventoryService (scope req)).

Definition adjust_call (m : EntityManager) (location : Nullable string)
    (fi : FulfillmentItem) : Call :=
  AdjustInventory m (variant_id (item fi)) location (quantity fi).

(** One call per item that has a variant, in item order. *)
Definition adjust_calls (m : EntityManager) (location : Nullable string)
    (l : list FulfillmentItem) : list Call :=
  map (adjust_call m location) (filter has_variant l).

(** The promise the callback hands back for item [fi]: the completion of
    its [adjustInventory] call, or nothing left to do. *)
Definition pending_adjustment (svc : ProductVariantInventoryService)
    (location : Nullable string) (fi : FulfillmentItem) : Promise unit :=
  if has_variant fi
  then on_manager (bound_to svc)
         (adjustInventory (impl svc) (variant_id (item fi)) location
            (quantity fi))
  else ret tt.

(** What the call started for item [fi] does to the database when it
    completes; an item without a variant starts no call. *)
Definition adjustment (pv : ProductVariantInventoryServiceMethods)
    (location : Nullable string) (fi : FulfillmentItem)
    : World -> Outcome unit * World :=
  if has_variant fi
  then adjustInventory pv (variant_id (item fi)) location (quantity fi)
  else fun w => (Ok tt, w).

(** The adjustments of [l] on database [w], completing in the platform's
    order: their outcomes tagged by item position, and the database they
    leave. *)
Definition adjust_settled (pv : ProductVariantInventoryServiceMethods)
    (location : Nullable string) (l : list FulfillmentItem) (w : World)
    : list (nat * Outcome unit) * World :=
  settle_in_order (map (adjustment pv location) l) (completion (length l)) w.

(** The database after the adjustments of [l] have all completed. *)
Definition adjust_world (pv : ProductVariantInventoryServiceMethods)
    (location : Nullable string) (l : list FulfillmentItem)
    (w : World) : World :=
  snd (adjust_settled pv location l w).

(** How the promises of the fan-out settle, one per item, in item
    position. *)
Definition adjust_outcomes (pv : ProductVariantInventoryServiceMethods)
    (location : Nullable string) (l : list FulfillmentItem)
    (w : World) : list (Outcome unit) :=
  by_position (fst (adjust_settled pv location l w)).

Definition is_adjustment (c : Call) : bool :=
  match c with AdjustInventory _ _ _ _ => true | _ => false end.

Definition is_cancellation (c : Call) : bool :=
  match c with OrderCancelFulfillment _ _ => true | _ => false end.

Definition is_response (c : Call) : bool :=
  match c with ResJson _ => true | _ => false end.

(** [sub] occurs in [s]. *)
Definition occurs_in (sub s : string) : Prop :=
  exists before after : string, s = (before ++ sub ++ after)%string.

(** The relations of the fetch inside the transaction. *)
Definition with_items : option (list string) :=
  Some ["items"; "items.item"]%string.

(** The store when the callback of the transaction starts, the ownership
    check having passed on database [w1]. *)
Definition at_transaction_start (req : Request) (w1 : World) : Store :=
  {| committed := w1;
     pending := Some w1;
     trace := [FulfillmentRetrieve DefaultManager
                 (params_fulfillment_id req) None;
               TransactionBegin] |}.

(** What the handler relies on from [promiseAll]: it rejects exactly when
    one of the promises rejected, and then with the reason of one of
    them. *)
Definition promiseAll_keeps_reasons : Prop :=
  forall ps : list (Outcome unit),
    match promiseAll unit ps with
    | Throw e => In (Throw e) ps
    | Ok _ => forall e : exn, ~ In (Throw e) ps
    end.

(** An [adjustInventory] call made through manager [m] for location
    [location]. *)
Definition adjusts_at (m : EntityManager) (location : Nullable string)
    (c : Call) : Prop :=
  match c with
  | AdjustInventory m' _ location' _ => m' = m /\ location' = location
  | _ => True
  end.

(** *** The paths through the handler

    After the fetch inside the transaction returned [f1] on working copy
    [w3]: how the awaited fan-out ends, the working copy it leaves, and the
    calls the callback has made. *)
Definition awaited_adjustments (req : Request) (f1 : Fulfillment)
    (w3 : World) : Outcome unit :=
  if adjusts_inventory req f1
  then
    match promiseAll unit
            (adjust_outcomes (productVariantInventoryService (scope req))
               (location_id f1) (items f1) w3) with
    | Ok _ => Ok tt
    | Throw e => Throw e
    end
  else Ok tt.

Definition world_in_transaction (req : Request) (f1 : Fulfillment)
    (w3 : World) : World :=
  if adjusts_inventory req f1
  then adjust_world (productVariantInventoryService (scope req))
         (location_id f1) (items f1) w3
  else w3.

Definition calls_in_transaction (req : Request) (f1 : Fulfillment)
    : list Call :=
  [OrderCancelFulfillment TransactionManager (params_fulfillment_id req);
   FulfillmentRetrieve TransactionManager (params_fulfillment_id req)
     with_items]
  ++ (if adjusts_inventory req f1
      then adjust_calls TransactionManager (location_id f1) (items f1)
      else []).

Definition reload_call (req : Request) : Call :=
  OrderRetrieveWithTotals DefaultManager (params_id req)
    (retrieveConfig req) (includes req).

(** [Run req w r st]: started on database [w], the handler can end with
    outcome [r] in store [st].  One constructor per place where the
    handler stops. *)
Inductive Run (req : Request) (w : World) : Outcome unit -> Store -> Prop :=
| run_fetch_failed (e : exn) (w1 : World) :
    retrieve (fulfillmentService (scope req)) (params_fulfillment_id req)
      None w = (Throw e, w1) ->
    Run req w (Throw e)
      {| committed := w1; pending := None;
         trace := [FulfillmentRetrieve DefaultManager
                     (params_fulfillment_id req) None] |}
| run_rejected (f : Fulfillment) (w1 : World) :
    retrieve (fulfillmentService (scope req)) (params_fulfillment_id req)
      None w = (Ok f, w1) ->
    strict_neq (order_id f) (params_id req) = true ->
    Run req w
      (Throw (MedusaError NOT_FOUND
                (not_found_message (params_fulfillment_id req)
                   (params_id req))))
      {| committed := w1; pending := None;
         trace := [FulfillmentRetrieve DefaultManager
                     (params_fulfillment_id req) None] |}
| run_cancel_failed (f : Fulfillment) (w1 w2 : World) (e : exn) :
    retrieve (fulfillmentService (scope req)) (params_fulfillment_id req)
      None w = (Ok f, w1) ->
    strict_neq (order_id f) (params_id req) = false ->
    cancelFulfillment (orderService (scope req))
      (params_fulfillment_id req) w1 = (Throw e, w2) ->
    Run req w (Throw e)
      {| committed := w1; pending := None;
         trace := trace (at_transaction_start req w1) ++
                  [OrderCancelFulfillment TransactionManager
                     (params_fulfillment_id req);
                   TransactionRollback] |}
| run_refetch_failed (f : Fulfillment) (w1 w2 w3 : World) (o : Order)
    (e : exn) :
    retrieve (fulfillmentService (scope req)) (params_fulfillment_id req)
      None w = (Ok f, w1) ->
    strict_neq (order_id f) (params_id req) = false ->
    cancelFulfillment (orderService (scope req))
      (params_fulfillment_id req) w1 = (Ok o, w2) ->
    retrieve (fulfillmentService (scope req)) (params_fulfillment_id req)
      with_items w2 = (Throw e, w3) ->
    Run req w (Throw e)
      {| committed := w1; pending := None;
         trace := trace (at_transaction_start req w1) ++
                  [OrderCancelFulfillment TransactionManager
                     (params_fulfillment_id req);
                   FulfillmentRetrieve TransactionManager
                     (params_fulfillment_id req) with_items;
                   TransactionRollback] |}
| run_adjust_failed (f f1 : Fulfillment) (w1 w2 w3 : World) (o : Order)
    (e : exn) :
    retrieve (fulfillmentService (scope req)) (params_fulfillment_id req)
      None w = (Ok f, w1) ->
    strict_neq (order_id f) (params_id req) = false ->
    cancelFulfillment (orderService (scope req))
      (params_fulfillment_id req) w1 = (Ok o, w2) ->
    retrieve (fulfillmentService (scope req)) (params_fulfillment_id req)
      with_items w2 = (Ok f1, w3) ->
    awaited_adjustments req f1 w3 = Throw e ->
    Run req w (Throw e)
      {| committed := w1; pending := None;
         trace := trace (at_transaction_start req w1) ++
                  calls_in_transaction req f1 ++ [TransactionRollback] |}
| run_reload_failed (f f1 : Fulfillment) (w1 w2 w3 w5 : World) (o : Order)
    (e : exn) :
    retrieve (fulfillmentService (scope req)) (params_fulfillment_id req)
      None w = (Ok f, w1) ->
    strict_neq (order_id f) (params_id req) = false ->
    cancelFulfillment (orderService (scope req))
      (params_fulfillment_id req) w1 = (Ok o, w2) ->
    retrieve (fulfillmentService (scope req)) (params_fulfillment_id req)
      with_items w2 = (Ok f1, w3) ->
    awaited_adjustments req f1 w3 = Ok tt ->
    retrieveWithTotals (orderService (scope req)) (params_id req)
      (retrieveConfig req) (includes req)
      (world_in_transaction req f1 w3) = (Throw e, w5) ->
    Run req w (Throw e)
      {| committed := w5; pending := None;
         trace := trace (at_transaction_start req w1) ++
                  calls_in_transaction req f1 ++
                  [TransactionCommit; reload_call req] |}
| run_done (f f1 : Fulfillment) (w1 w2 w3 w5 : World) (o order : Order) :
    retrieve (fulfillmentService (scope req)) (params_fulfillment_id req)
      None w = (Ok f, w1) ->
    strict_neq (order_id f) (params_id req) = false ->
    cancelFulfillment (orderService (scope req))
      (params_fulfillment_id req) w1 = (Ok o, w2) ->
    retrieve (fulfillmentService (scope req)) (params_fulfillment_id req)
      with_items w2 = (Ok f1, w3) ->
    awaited_adjustments req f1 w3 = Ok tt ->
    retrieveWithTotals (orderService (scope req)) (params_id req)
      (retrieveConfig req) (includes req)
      (world_in_transaction req f1 w3) = (Ok order, w5) ->
    Run req w (Ok tt)
      {| committed := w5; pending := None;
         trace := trace (at_transaction_start req w1) ++
                  calls_in_transaction req f1 ++
                  [TransactionCommit; reload_call req;
                   ResJson [("order"%string,
                             cleanResponseData order [])]] |}.

(** *** Further vocabulary: transaction brackets and call discipline *)

Definition is_begin (c : Call) : bool :=
  match c with TransactionBegin => true | _ => false end.

Definition is_commit (c : Call) : bool :=
  match c with TransactionCommit => true | _ => false end.

Definition is_rollback (c : Call) : bool :=
  match c with TransactionRollback => true | _ => false end.

(** What a call of the handler may look like: the first fetch and the
    reload go through the container's manager, everything else through the
    transaction's; the ids are the path's; the reload takes the request's
    configuration; an adjustment is for a truthy variant. *)
Definition well_addressed (req : Request) (c : Call) : Prop :=
  match c with
  | FulfillmentRetrieve m id relations =>
      id = params_fulfillment_id req /\
      ((m = DefaultManager /\ relations = None) \/
       (m = TransactionManager /\ relations = with_items))
  | OrderCancelFulfillment m id =>
      m = TransactionManager /\ id = params_fulfillment_id req
  | AdjustInventory m variant _ _ =>
      m = TransactionManager /\ truthy variant = true
  | OrderRetrieveWithTotals m id config inc =>
      m = DefaultManager /\ id = params_id req /\
      config = retrieveConfig req /\ inc = includes req
  | TransactionBegin | TransactionCommit | TransactionRollback => True
  | ResJson _ => True
  end.

(** The database a service bound to manager [m] acts on. *)
Definition database_of (m : EntityManager) (st : Store) : option World :=
  match m with
  | DefaultManager => Some (committed st)
  | TransactionManager => pending st
  end.

End Expected.

(** ** A small concrete platform, to run the handler on *)

Module Demo.

Local Open Scope string_scope.

(** Stored fulfillments, the ids of the cancelled ones, and the inventory
    adjustments applied so far (variant, location, quantity). *)
Record Db : Type := {
  fulfillments : list (string * Fulfillment);
  canceled : list string;
  adjusted : list (string * string * Z)
}.

Fixpoint lookup (id : string) (l : list (string * Fulfillment))
    : option Fulfillment :=
  match l with
  | [] => None
  | (k, f) :: l' => if String.eqb k id then Some f else lookup id l'
  end.

(** As [promiseAll] of [@medusajs/utils] with its default options: wait for
    all, then throw the reason of the first rejected promise, if any. *)
Fixpoint settle_all {T} (ps : list (Outcome T)) : Outcome (list T) :=
  match ps with
  | [] => Ok []
  | Throw e :: _ => Throw e
  | Ok v :: ps' =>
      match settle_all ps' with
      | Ok vs => Ok (v :: vs)
      | Throw e =>
          Throw e
      end
  end.

#[export] Instance platform : Platform := {|
  World := Db;
  Order := string * list string;
  FindConfig := list string;
  Includes := list string;
  IInventoryService := unit;
  ResponseData := string * list string;
  cleanResponseData := fun o _ => o;
  promiseAll := @settle_all;
  completion := fun n => seq 0 n;
  completion_permutes := fun n => Permutation_refl (seq 0 n)
|}.

(** The same platform, on which the call started last completes first. *)
Definition last_first : Platform := {|
  World := Db;
  Order := string * list string;
  FindConfig := list string;
  Includes := list string;
  IInventoryService := unit;
  ResponseData := string * list string;
  cleanResponseData := fun o _ => o;
  promiseAll := @settle_all;
  completion := fun n => rev (seq 0 n);
  completion_permutes := fun n => Permutation_sym (Permutation_rev (seq 0 n))
|}.

(** Items are only loaded when relations are asked for. *)
Definition fulfillments_retrieve (id : string)
    (relations : option (list string)) (db : Db)
    : Outcome Fulfillment * Db :=
  match lookup id (fulfillments db) with
  | None => (Throw (MedusaError NOT_FOUND "Fulfillment was not found"), db)
  | Some f =>
      match relations with
      | Some _ => (Ok f, db)
      | None =>
          (Ok {| order_id := order_id f;
                 location_id := location_id f;
                 items := [] |}, db)
      end
  end.

Definition orders_cancelFulfillment (fulfillment_id : string) (db : Db)
    : Outcome (string * list string) * Db :=
  if existsb (String.eqb fulfillment_id) (canceled db)
  then (Throw (MedusaError NOT_ALLOWED "Fulfillment already canceled"), db)
  else
    (Ok ("order", fulfillment_id :: canceled db),
     {| fulfillments := fulfillments db;
        canceled := fulfillment_id :: canceled db;
        adjusted := adjusted db |}).

Definition orders_retrieveWithTotals (id : string)
    (config includes : list string) (db : Db)
    : Outcome (string * list string) * Db :=
  (Ok (id, canceled db), db).

(** Adjusting the variant ["variant_gone"] fails. *)
Definition inventory_adjust (variant location : Nullable string) (qty : Z)
    (db : Db) : Outcome unit * Db :=
  match variant, location with
  | value v, value l =>
      if String.eqb v "variant_gone"
      then (Throw (MedusaError NOT_FOUND "Variant was not found"), db)
      else
        (Ok tt,
         {| fulfillments := fulfillments db;
            canceled := canceled db;
            adjusted := adjusted db ++ [(v, l, qty)] |})
  | _, _ => (Throw (Thrown "TypeError"), db)
  end.

Definition container (inventory : option unit) : Container :=
  {| orderService :=
       {| cancelFulfillment := orders_cancelFulfillment;
          retrieveWithTotals := orders_retrieveWithTotals |};
     fulfillmentService := {| retrieve := fulfillments_retrieve |};
     productVariantInventoryService :=
       {| adjustInventory := inventory_adjust |};
     inventoryService := inventory |}.

Definition request (id fulfillment_id : string) (inventory : option unit)
    : Request :=
  {| params_id := id;
     params_fulfillment_id := fulfillment_id;
     scope := container inventory;
     retrieveConfig := ["items"];
     includes := [] |}.

Definition line (variant : Nullable string) (qty : Z) : FulfillmentItem :=
  {| item := {| variant_id := variant |}; quantity := qty |}.

(** Fulfillment [ful_1] of [order_1] sits at a location and has three items,
    one of them without a variant and one with quantity 0; [ful_2] has no
    location; [ful_3] has an empty location; [ful_4] holds a variant whose
    adjustment fails. *)
Definition ful_1 : Fulfillment :=
  {| order_id := value "order_1";
     location_id := value "loc_1";
     items := [line (value "variant_a") 2; line null 5;
               line (value "variant_b") 0] |}.

Definition ful_2 : Fulfillment :=
  {| order_id := value "order_1";
     location_id := null;
     items := [line (value "variant_a") 1] |}.

Definition ful_3 : Fulfillment :=
  {| order_id := value "order_1";
     location_id := value "";
     items := [line (value "variant_a") 1] |}.

Definition ful_4 : Fulfillment :=
  {| order_id := value "order_2";
     location_id := value "loc_1";
     items := [line (value "variant_a") 3; line (value "variant_gone") 1;
               line (value "variant_b") 4] |}.

Definition db0 : Db :=
  {| fulfillments := [("ful_1", ful_1); ("ful_2", ful_2);
                      ("ful_3", ful_3); ("ful_4", ful_4)];
     canceled := [];
     adjusted := [] |}.

(** [ful] as a fetch without relations returns it. *)
Definition bare (ful : Fulfillment) : Fulfillment :=
  {| order_id := order_id ful;
     location_id := location_id ful;
     items := [] |}.

(** [db0] once fulfillment [fulfillment_id] is cancelled. *)
Definition db_canceled (fulfillment_id : string) : Db :=
  {| fulfillments := fulfillments db0;
     canceled := [fulfillment_id];
     adjusted := [] |}.

(** A container whose order service cannot reload orders. *)
Definition orders_retrieveWithTotals_fails (id : string)
    (config includes : list string) (db : Db)
    : Outcome (string * list string) * Db :=
  (Throw (MedusaError DB_ERROR "connection lost"), db).

Definition request_reload_fails (id fulfillment_id : string) : Request :=
  {| params_id := id;
     params_fulfillment_id := fulfillment_id;
     scope :=
       {| orderService :=
            {| cancelFulfillment := orders_cancelFulfillment;
               retrieveWithTotals := orders_retrieveWithTotals_fails |};
          fulfillmentService := {| retrieve := fulfillments_retrieve |};
          productVariantInventoryService :=
            {| adjustInventory := inventory_adjust |};
          inventoryService := Some tt |};
     retrieveConfig := [];
     includes := [] |}.

(** A fulfillment none of whose items refers to a variant. *)
Definition ful_5 : Fulfillment :=
  {| order_id := value "order_3";
     location_id := value "loc_1";
     items := [line null 1; line (value "") 2; line undefined 3] |}.

(** The inventory service of the demo on the platform [last_first], not
    bound to a transaction. *)
Definition variants_last_first
    : @ProductVariantInventoryServiceMethods last_first :=
  @Build_ProductVariantInventoryServiceMethods last_first inventory_adjust.

Definition context_last_first : @AdjustContext last_first :=
  @Build_AdjustContext last_first (resolve variants_last_first).

End Demo.

(** ** Properties *)

Section Settling.

Context {S T : Type}.

Lemma insert_by_position_permutes {X} (p : nat * X) (l : list (nat * X)) :
  Permutation (insert_by_position p l) (p :: l).
Proof.
  induction l as [|q l IH]; cbn; [reflexivity|].
  destruct (fst p <=? fst q); [reflexivity|].
  rewrite IH. apply perm_swap.
Qed.

Lemma sort_by_position_permutes {X} (l : list (nat * X)) :
  Permutation (sort_by_position l) l.
Proof.
  induction l as [|p l IH]; cbn; [reflexivity|].
  rewrite insert_by_position_permutes, IH. reflexivity.
Qed.

(** Putting the outcomes back in position loses and invents nothing. *)
Lemma in_by_position {X} (x : X) (rs : list (nat * X)) :
  In x (by_position rs) <-> exists k : nat, In (k, x) rs.
Proof.
  unfold by_position. rewrite in_map_iff. split.
  - intros ([k x'] & Hx & Hin). cbn in Hx. subst x'. exists k.
    apply (Permutation_in _ (sort_by_position_permutes rs)). exact Hin.
  - intros (k & Hin). exists (k, x). split; [reflexivity|].
    apply (Permutation_in _ (Permutation_sym (sort_by_position_permutes rs))).
    exact Hin.
Qed.

(** An outcome at position [k] is what the task at position [k] returned
    on some state. *)
Lemma settle_in_order_outcome (tasks : list (S -> Outcome T * S))
    (order : list nat) (k : nat) (r : Outcome T) :
  forall s : S,
    In (k, r) (fst (settle_in_order tasks order s)) ->
    exists (task : S -> Outcome T * S) (s' : S),
      nth_error tasks k = Some task /\ fst (task s') = r.
Proof.
  induction order as [|j order IH]; intros s Hin; cbn in Hin;
    [contradiction|].
  destruct (nth_error tasks j) as [task|] eqn:Hj; [|exact (IH s Hin)].
  destruct (task s) as [r1 s1] eqn:Ht.
  specialize (IH s1).
  destruct (settle_in_order tasks order s1) as [rs s2].
  cbn [fst] in *. destruct Hin as [Hin|Hin].
  - inversion Hin; subst. exists task, s. rewrite Ht. auto.
  - exact (IH Hin).
Qed.

(** A task whose position is in the order completes: it has an outcome,
    the one it returned on the state it found. *)
Lemma settle_in_order_completes (tasks : list (S -> Outcome T * S))
    (order : list nat) (k : nat) (task : S -> Outcome T * S) :
  nth_error tasks k = Some task ->
  In k order ->
  forall s : S,
    exists s' : S,
      In (k, fst (task s')) (fst (settle_in_order tasks order s)).
Proof.
  intros Hk. induction order as [|j order IH]; intros Hin s;
    [contradiction|].
  cbn [settle_in_order].
  destruct (Nat.eq_dec j k) as [->|Hne].
  - rewrite Hk. destruct (task s) as [r1 s1] eqn:Ht.
    destruct (settle_in_order tasks order s1) as [rs s2].
    exists s. rewrite Ht. left. reflexivity.
  - destruct Hin as [Hin|Hin]; [contradiction|].
    destruct (nth_error tasks j) as [task'|].
    + destruct (task' s) as [r1 s1].
      destruct (IH Hin s1) as (s' & Hs').
      destruct (settle_in_order tasks order s1) as [rs s2].
      exists s'. right. exact Hs'.
    + exact (IH Hin s).
Qed.

End Settling.

Section FanOut.

Context {P : Platform}.

(** The callback mapped over [fulfillment.items]. *)
Local Abbreviation callback svc location :=
  (fun fi : FulfillmentItem =>
     async
       (if truthy (variant_id (item fi))
        then call_adjustInventory svc (variant_id (item fi)) location
               (quantity fi)
        else ret (ret tt))).

Lemma adjust_calls_cons (m : EntityManager) (location : Nullable string)
    (fi : FulfillmentItem) (l : list FulfillmentItem) :
  adjust_calls m location (fi :: l) =
  (if has_variant fi then [adjust_call m location fi] else [])
    ++ adjust_calls m location l.
Proof.
  unfold adjust_calls; simpl.
  destruct (has_variant fi); reflexivity.
Qed.

Lemma on_manager_trace {A} (m : EntityManager)
    (op : World -> Outcome A * World) (st st' : Store) (r : Outcome A) :
  on_manager m op st = (r, st') -> trace st' = trace st.
Proof.
  unfold on_manager.
  destruct m; [|destruct (pending st)]; try destruct (op _);
    intros H; inversion H; reflexivity.
Qed.

(** Mapping the callback starts the calls, in item order, and touches
    nothing else: the database is as it was, the promises are pending. *)
Lemma fan_out_started (svc : ProductVariantInventoryService)
    (location : Nullable string) (l : list FulfillmentItem) :
  forall st : Store,
    Array_map (callback svc location) l st =
    (Ok (map (pending_adjustment svc location) l),
     {| committed := committed st;
        pending := pending st;
        trace := trace st ++ adjust_calls (bound_to svc) location l |}).
Proof.
  induction l as [|fi l IH]; intros st.
  - cbn. unfold ret. destruct st; cbn. rewrite app_nil_r. reflexivity.
  - rewrite adjust_calls_cons. cbn [Array_map map].
    unfold bind at 1. unfold async at 1.
    unfold pending_adjustment at 1. unfold has_variant.
    destruct (truthy (variant_id (item fi))).
    + unfold call_adjustInventory, bind, record, ret. cbn.
      unfold bind. rewrite IH. cbn. unfold ret.
      rewrite <- app_assoc. reflexivity.
    + unfold ret at 1. unfold bind. rewrite IH. cbn. unfold ret.
      reflexivity.
Qed.

Lemma pending_adjustment_trace (svc : ProductVariantInventoryService)
    (location : Nullable string) (fi : FulfillmentItem)
    (st st' : Store) (r : Outcome unit) :
  pending_adjustment svc location fi st = (r, st') -> trace st' = trace st.
Proof.
  unfold pending_adjustment. destruct (has_variant fi).
  - apply on_manager_trace.
  - unfold ret. intros H. inversion H. reflexivity.
Qed.

(** Completing the calls records nothing. *)
Lemma settle_keeps_trace (svc : ProductVariantInventoryService)
    (location : Nullable string) (l : list FulfillmentItem)
    (order : list nat) :
  forall st : Store,
    trace (snd (settle_in_order (map (pending_adjustment svc location) l)
                  order st)) = trace st.
Proof.
  induction order as [|k order IH]; intros st; [reflexivity|].
  cbn [settle_in_order]. rewrite nth_error_map.
  destruct (nth_error l k) as [fi|]; cbn [option_map]; [|apply IH].
  destruct (pending_adjustment svc location fi st) as [r st1] eqn:E.
  apply pending_adjustment_trace in E.
  specialize (IH st1).
  destruct (settle_in_order _ order st1) as [rs st2].
  cbn [snd] in *. congruence.
Qed.

(** Whatever manager the service is bound to, the helper makes exactly the
    calls of [adjust_calls], in item order. *)
Lemma helper_trace (f : Fulfillment) (context : AdjustContext)
    (st : Store) :
  exists (r : Outcome unit) (st' : Store),
    adjustInventoryForCancelledFulfillment f context st = (r, st') /\
    trace st' =
    trace st ++
    adjust_calls (bound_to (ctx_productVariantInventoryService context))
      (location_id f) (items f).
Proof.
  unfold adjustInventoryForCancelledFulfillment.
  unfold bind at 1. rewrite fan_out_started.
  unfold bind at 1. unfold all_settled.
  match goal with
  | |- context [settle_in_order ?ps ?order ?st0] =>
      pose proof (settle_keeps_trace
                    (ctx_productVariantInventoryService context)
                    (location_id f) (items f) order st0) as Htr;
      destruct (settle_in_order ps order st0) as [rs st1]
  end.
  cbn [snd trace] in Htr.
  unfold bind, await, ret.
  destruct (promiseAll unit (by_position rs));
    eexists; eexists; (split; [reflexivity|exact Htr]).
Qed.

(** Inside a transaction the adjustments complete on its working copy and
    leave the committed database alone. *)
Lemma settle_in_transaction (pv : ProductVariantInventoryServiceMethods)
    (location : Nullable string) (l : list FulfillmentItem)
    (order : list nat) :
  forall (st : Store) (w : World),
    pending st = Some w ->
    settle_in_order
      (map (pending_adjustment
              (withTransaction TransactionManager (resolve pv)) location) l)
      order st =
    (fst (settle_in_order (map (adjustment pv location) l) order w),
     {| committed := committed st;
        pending :=
          Some (snd (settle_in_order (map (adjustment pv location) l)
                       order w));
        trace := trace st |}).
Proof.
  set (tasks := map (adjustment pv location) l).
  set (promises :=
         map (pending_adjustment
                (withTransaction TransactionManager (resolve pv)) location)
           l).
  induction order as [|k order IH]; intros st w Hp.
  - cbn. destruct st; cbn in *. subst. reflexivity.
  - cbn [settle_in_order]. subst tasks promises. rewrite !nth_error_map.
    set (tasks := map (adjustment pv location) l) in *.
    set (promises :=
           map (pending_adjustment
                  (withTransaction TransactionManager (resolve pv))
                  location) l) in *.
    destruct (nth_error l k) as [fi|]; cbn [option_map];
      [|apply IH; exact Hp].
    unfold pending_adjustment, adjustment.
    destruct (has_variant fi).
    + unfold on_manager. cbn [withTransaction resolve bound_to impl].
      rewrite Hp.
      destruct (adjustInventory pv (variant_id (item fi)) location
                  (quantity fi) w) as [r w1].
      erewrite IH by reflexivity. cbn [committed trace].
      destruct (settle_in_order tasks order w1) as [rs w2].
      reflexivity.
    + unfold ret. erewrite IH by exact Hp.
      destruct (settle_in_order tasks order w) as [rs w2].
      reflexivity.
Qed.

End FanOut.

Section Runs.

Context {P : Platform}.

Local Abbreviation fid req := (params_fulfillment_id req).
Local Abbreviation orders req := (orderService (scope req)).
Local Abbreviation fulfillments req := (fulfillmentService (scope req)).
Local Abbreviation variants req :=
  (productVariantInventoryService (scope req)).

(** The helper, called with a service bound to an open transaction. *)
Lemma adjustInventoryForCancelledFulfillment_in_transaction
    (pv : ProductVariantInventoryServiceMethods) (f : Fulfillment)
    (st : Store) (w : World) :
  pending st = Some w ->
  adjustInventoryForCancelledFulfillment f
    {| ctx_productVariantInventoryService :=
         withTransaction TransactionManager (resolve pv) |} st =
  (match promiseAll unit
           (adjust_outcomes pv (location_id f) (items f) w) with
   | Ok _ => Ok tt
   | Throw e => Throw e
   end,
   {| committed := committed st;
      pending := Some (adjust_world pv (location_id f) (items f) w);
      trace := trace st ++
               adjust_calls TransactionManager (location_id f) (items f) |}).
Proof.
  intros Hp. unfold adjustInventoryForCancelledFulfillment.
  cbn [ctx_productVariantInventoryService].
  unfold bind at 1. rewrite fan_out_started.
  unfold bind at 1. unfold all_settled.
  erewrite settle_in_transaction by (cbn [pending]; exact Hp).
  rewrite !length_map.
  unfold adjust_outcomes, adjust_world, adjust_settled.
  destruct (settle_in_order _ _ w) as [rs w'].
  cbn [fst snd committed pending trace bound_to withTransaction].
  unfold bind, await, ret.
  destruct (promiseAll unit _); reflexivity.
Qed.

(** What the callback of the transaction does, step by step, on a working
    copy [w1]. *)
Lemma in_transaction_run (req : Request) (c w1 : World) (tr : list Call) :
  in_transaction req TransactionManager
    {| committed := c; pending := Some w1; trace := tr |} =
  match cancelFulfillment (orders req) (fid req) w1 with
  | (Throw e, w2) =>
      (Throw e,
       {| committed := c; pending := Some w2;
          trace := tr ++ [OrderCancelFulfillment TransactionManager
                            (fid req)] |})
  | (Ok _, w2) =>
      match retrieve (fulfillments req) (fid req) with_items w2 with
      | (Throw e, w3) =>
          (Throw e,
           {| committed := c; pending := Some w3;
              trace := tr ++
                       [OrderCancelFulfillment TransactionManager (fid req);
                        FulfillmentRetrieve TransactionManager (fid req)
                          with_items] |})
      | (Ok f1, w3) =>
          (awaited_adjustments req f1 w3,
           {| committed := c;
              pending := Some (world_in_transaction req f1 w3);
              trace := tr ++ calls_in_transaction req f1 |})
      end
  end.
Proof.
  unfold in_transaction.
  unfold bind at 1. unfold call_cancelFulfillment at 1.
  unfold bind at 1. unfold record at 1. cbn [withTransaction resolve
    bound_to impl committed pending trace].
  unfold on_manager at 1. cbn [pending committed trace].
  destruct (cancelFulfillment (orders req) (fid req) w1) as [[o|e] w2];
    [|reflexivity].
  unfold bind at 1. unfold call_retrieve at 1.
  unfold bind at 1. unfold record at 1. cbn [withTransaction resolve
    bound_to impl committed pending trace].
  unfold on_manager at 1. cbn [pending committed trace].
  rewrite <- app_assoc. cbn [app].
  fold with_items.
  destruct (retrieve (fulfillments req) (fid req) with_items w2)
    as [[f1|e] w3]; [|reflexivity].
  fold (adjusts_inventory req f1).
  unfold awaited_adjustments, world_in_transaction, calls_in_transaction.
  destruct (adjusts_inventory req f1).
  - erewrite adjustInventoryForCancelledFulfillment_in_transaction
      by (cbn [pending]; reflexivity).
    cbn [committed pending trace]. rewrite <- !app_assoc. reflexivity.
  - unfold ret. rewrite app_nil_r. reflexivity.
Qed.

(** The callback never touches the committed database, and leaves a
    working copy behind. *)
Lemma in_transaction_isolated (req : Request) (w1 : World)
    (r : Outcome unit) (st2 : Store) :
  in_transaction req TransactionManager (at_transaction_start req w1) =
  (r, st2) ->
  committed st2 = w1 /\ exists w2 : World, pending st2 = Some w2.
Proof.
  unfold at_transaction_start. rewrite in_transaction_run.
  destruct (cancelFulfillment _ _ _) as [[o|e] w2];
    [destruct (retrieve _ _ _ _) as [[f1|e] w3]|];
    intros H; inversion H; subst; cbn; eauto.
Qed.

(** The first fetch throws: the handler throws the same value. *)
Lemma handler_fetch_fails (req : Request) (w w1 : World) (e : exn) :
  retrieve (fulfillments req) (fid req) None w = (Throw e, w1) ->
  handler req (initial w) =
  (Throw e,
   {| committed := w1; pending := None;
      trace := [FulfillmentRetrieve DefaultManager (fid req) None] |}).
Proof.
  intros H. unfold handler, bind, call_retrieve, bind, record, on_manager.
  cbn. rewrite H. reflexivity.
Qed.

(** The ownership check fails. *)
Lemma handler_rejects (req : Request) (w w1 : World) (f : Fulfillment) :
  retrieve (fulfillments req) (fid req) None w = (Ok f, w1) ->
  strict_neq (order_id f) (params_id req) = true ->
  handler req (initial w) =
  (Throw (MedusaError NOT_FOUND
            (not_found_message (fid req) (params_id req))),
   {| committed := w1; pending := None;
      trace := [FulfillmentRetrieve DefaultManager (fid req) None] |}).
Proof.
  intros H Hneq.
  unfold handler, bind, call_retrieve, bind, record, on_manager.
  cbn. rewrite H, Hneq. reflexivity.
Qed.

(** The ownership check passes: the transaction runs, then the order is
    reloaded and sent. *)
Lemma handler_passes (req : Request) (w w1 : World) (f : Fulfillment) :
  retrieve (fulfillments req) (fid req) None w = (Ok f, w1) ->
  strict_neq (order_id f) (params_id req) = false ->
  handler req (initial w) =
  match in_transaction req TransactionManager
          (at_transaction_start req w1) with
  | (Throw e, st2) =>
      (Throw e,
       {| committed := w1; pending := None;
          trace := trace st2 ++ [TransactionRollback] |})
  | (Ok _, st2) =>
      let tr :=
        trace st2 ++
        [TransactionCommit;
         OrderRetrieveWithTotals DefaultManager (params_id req)
           (retrieveConfig req) (includes req)] in
      match retrieveWithTotals (orders req) (params_id req)
              (retrieveConfig req) (includes req)
              (match pending st2 with Some w2 => w2 | None => w1 end) with
      | (Throw e, w5) =>
          (Throw e, {| committed := w5; pending := None; trace := tr |})
      | (Ok order, w5) =>
          (Ok tt,
           {| committed := w5; pending := None;
              trace := tr ++ [ResJson [("order"%string,
                                        cleanResponseData order [])]] |})
      end
  end.
Proof.
  intros H Hneq.
  unfold handler. unfold bind at 1.
  unfold call_retrieve, bind, record, on_manager.
  cbn [resolve bound_to impl initial committed pending trace app].
  rewrite H. cbn [app]. rewrite Hneq.
  unfold transaction. cbn [committed pending trace app].
  fold (at_transaction_start req w1).
  destruct (in_transaction req TransactionManager
              (at_transaction_start req w1)) as [[[]|e] st2] eqn:E.
  - apply in_transaction_isolated in E. destruct E as (Hc & w2 & Hp).
    unfold call_retrieveWithTotals, bind, record, on_manager, res_json,
      record.
    cbn [resolve bound_to impl committed pending trace].
    rewrite Hp.
    destruct (retrieveWithTotals _ _ _ _ w2) as [[order|e] w5].
    + cbn. rewrite <- !app_assoc. reflexivity.
    + cbn. rewrite <- !app_assoc. reflexivity.
  - apply in_transaction_isolated in E. destruct E as (Hc & _).
    rewrite Hc. reflexivity.
Qed.

(** Every run of the handler follows one of the paths of [Run]. *)
Lemma handler_Run (req : Request) (w : World) :
  Run req w (fst (handler req (initial w))) (snd (handler req (initial w))).
Proof.
  destruct (retrieve (fulfillments req) (fid req) None w)
    as [[f|e] w1] eqn:Hfetch.
  2:{ rewrite (handler_fetch_fails req w w1 e Hfetch).
      now apply run_fetch_failed. }
  destruct (strict_neq (order_id f) (params_id req)) eqn:Hneq.
  { rewrite (handler_rejects req w w1 f Hfetch Hneq).
    now apply run_rejected with (f := f). }
  rewrite (handler_passes req w w1 f Hfetch Hneq).
  unfold at_transaction_start. rewrite in_transaction_run.
  destruct (cancelFulfillment (orders req) (fid req) w1)
    as [[o|e] w2] eqn:Hcancel.
  2:{ now apply run_cancel_failed with (f := f) (w1 := w1) (w2 := w2). }
  destruct (retrieve (fulfillments req) (fid req) with_items w2)
    as [[f1|e] w3] eqn:Hagain.
  2:{ now apply run_refetch_failed
        with (f := f) (w1 := w1) (w2 := w2) (w3 := w3)
             (o := o). }
  destruct (awaited_adjustments req f1 w3) as [[]|e] eqn:Hawait.
  2:{ cbn [fst snd trace]. rewrite <- !app_assoc.
      now apply run_adjust_failed
        with (f := f) (w1 := w1) (w2 := w2) (w3 := w3)
             (o := o). }
  cbn [pending trace].
  destruct (retrieveWithTotals (orders req) (params_id req)
              (retrieveConfig req) (includes req)
              (world_in_transaction req f1 w3))
    as [[order|e] w5] eqn:Hload;
    cbn [fst snd]; rewrite <- !app_assoc.
  - now apply run_done
      with (f := f) (w1 := w1) (w2 := w2) (w3 := w3) (o := o).
  - now apply run_reload_failed
      with (f := f) (w1 := w1) (w2 := w2) (w3 := w3) (o := o).
Qed.

Lemma handler_cases (req : Request) (w : World) (r : Outcome unit)
    (st : Store) :
  handler req (initial w) = (r, st) -> Run req w r st.
Proof.
  intros H. pose proof (handler_Run req w) as HR.
  rewrite H in HR. exact HR.
Qed.

(** The transaction as a whole, started outside any transaction. *)
Lemma transaction_run (req : Request) (w1 : World) (tr : list Call) :
  transaction DefaultManager (in_transaction req)
    {| committed := w1; pending := None; trace := tr |} =
  match in_transaction req TransactionManager
          {| committed := w1; pending := Some w1;
             trace := tr ++ [TransactionBegin] |} with
  | (Ok a, st1) =>
      (Ok a,
       {| committed := match pending st1 with
                       | Some w2 => w2
                       | None => w1
                       end;
          pending := None;
          trace := trace st1 ++ [TransactionCommit] |})
  | (Throw e, st1) =>
      (Throw e,
       {| committed := w1; pending := None;
          trace := trace st1 ++ [TransactionRollback] |})
  end.
Proof.
  unfold transaction. cbn [committed pending trace].
  destruct (in_transaction req TransactionManager _) as [[a|e] st1] eqn:E;
    rewrite in_transaction_run in E;
    destruct (cancelFulfillment _ _ _) as [[o|e'] w2];
    try destruct (retrieve _ _ _ _) as [[f1|e''] w3];
    inversion E; subst; reflexivity.
Qed.

End Runs.

Section Traces.

Context {P : Platform}.

Lemma adjust_calls_are_adjustments (m : EntityManager)
    (location : Nullable string) (l : list FulfillmentItem) :
  filter is_adjustment (adjust_calls m location l) =
  adjust_calls m location l.
Proof.
  unfold adjust_calls.
  induction (filter has_variant l) as [|fi l' IH]; cbn; [|rewrite IH];
    reflexivity.
Qed.

Lemma adjust_calls_no_cancellation (m : EntityManager)
    (location : Nullable string) (l : list FulfillmentItem) :
  filter is_cancellation (adjust_calls m location l) = [].
Proof.
  unfold adjust_calls.
  induction (filter has_variant l) as [|fi l' IH]; cbn; auto.
Qed.

Lemma adjust_calls_no_response (m : EntityManager)
    (location : Nullable string) (l : list FulfillmentItem) :
  filter is_response (adjust_calls m location l) = [].
Proof.
  unfold adjust_calls.
  induction (filter has_variant l) as [|fi l' IH]; cbn; auto.
Qed.

Lemma occurs_in_middle (a b c : string) :
  occurs_in b (a ++ b ++ c)%string.
Proof. exists a, c. reflexivity. Qed.

Lemma string_app_assoc (a b c : string) :
  ((a ++ b) ++ c)%string = (a ++ b ++ c)%string.
Proof.
  induction a as [|ch a IH]; cbn; [|rewrite IH]; reflexivity.
Qed.

Lemma string_app_nil_r (a : string) : (a ++ "")%string = a.
Proof.
  induction a as [|ch a IH]; cbn; [|rewrite IH]; reflexivity.
Qed.

(** A call satisfying [p] that occurs after a prefix free of such calls
    occurs strictly after the whole prefix. *)
Lemma occurs_after_prefix (p : Call -> bool) (pre : list Call) :
  forall (rest before after : list Call) (c : Call),
    pre ++ rest = before ++ c :: after ->
    filter p pre = [] ->
    p c = true ->
    exists mid : list Call, before = pre ++ mid.
Proof.
  induction pre as [|a pre IH]; intros rest before after c Heq Hpre Hc.
  - exists before. reflexivity.
  - cbn in Hpre. destruct (p a) eqn:Ha; [discriminate|].
    destruct before as [|b before]; cbn in Heq; inversion Heq; subst.
    + congruence.
    + destruct (IH rest before after c H1 Hpre Hc) as [mid ->].
      exists mid. reflexivity.
Qed.

Lemma adjust_calls_adjust_at (m : EntityManager)
    (location : Nullable string) (l : list FulfillmentItem) :
  Forall (adjusts_at m location) (adjust_calls m location l).
Proof.
  unfold adjust_calls.
  induction (filter has_variant l) as [|fi l' IH]; constructor;
    cbn; auto.
Qed.

(** A rejected promise of the fan-out is a rejected [adjustInventory]
    call for one of the items. *)
Lemma adjust_outcomes_reason (pv : ProductVariantInventoryServiceMethods)
    (location : Nullable string) (e : exn) (l : list FulfillmentItem) :
  forall w : World,
    In (Throw e) (adjust_outcomes pv location l w) ->
    exists (fi : FulfillmentItem) (w' : World),
      In fi l /\
      fst (adjustInventory pv (variant_id (item fi)) location
             (quantity fi) w') = Throw e.
Proof.
  intros w Hin. unfold adjust_outcomes, adjust_settled in Hin.
  apply in_by_position in Hin. destruct Hin as (k & Hin).
  apply settle_in_order_outcome in Hin.
  destruct Hin as (task & w' & Hk & Hr).
  rewrite nth_error_map in Hk.
  destruct (nth_error l k) as [fi|] eqn:Hfi; [|discriminate Hk].
  cbn in Hk. inversion Hk; subst task.
  exists fi, w'. split; [exact (nth_error_In _ _ Hfi)|].
  unfold adjustment in Hr.
  destruct (has_variant fi); [exact Hr|discriminate Hr].
Qed.

(** Every call the fan-out started completes: an [adjustInventory] call
    that throws on whatever database it finds leaves a rejected promise,
    whatever the order of completion. *)
Lemma adjustment_that_always_throws
    (pv : ProductVariantInventoryServiceMethods)
    (location : Nullable string) (e : exn) (l : list FulfillmentItem)
    (fi : FulfillmentItem) (w : World) :
  In fi l ->
  truthy (variant_id (item fi)) = true ->
  (forall w' : World,
      fst (adjustInventory pv (variant_id (item fi)) location
             (quantity fi) w') = Throw e) ->
  In (Throw e) (adjust_outcomes pv location l w).
Proof.
  intros Hin Hvariant Hthrows.
  apply In_nth_error in Hin. destruct Hin as (k & Hk).
  assert (Hlt : k < length l) by (apply nth_error_Some; congruence).
  assert (Hord : In k (completion (length l))).
  { apply (Permutation_in _ (Permutation_sym (completion_permutes _))).
    apply in_seq. lia. }
  assert (Htask : nth_error (map (adjustment pv location) l) k =
                  Some (adjustment pv location fi)).
  { rewrite nth_error_map, Hk. reflexivity. }
  destruct (settle_in_order_completes _ _ _ _ Htask Hord w) as (w' & Hw').
  unfold adjust_outcomes, adjust_settled. apply in_by_position.
  exists k.
  replace (Throw e) with (fst (adjustment pv location fi w')); [exact Hw'|].
  unfold adjustment, has_variant. rewrite Hvariant. apply Hthrows.
Qed.

Lemma adjust_calls_filtered_out (p : Call -> bool) (m : EntityManager)
    (location : Nullable string) (l : list FulfillmentItem) :
  (forall c : Call, is_adjustment c = true -> p c = false) ->
  filter p (adjust_calls m location l) = [].
Proof.
  intros Hp. unfold adjust_calls.
  induction (filter has_variant l) as [|fi l' IH]; [reflexivity|].
  cbn [map filter]. rewrite (Hp (adjust_call m location fi) eq_refl).
  exact IH.
Qed.

Lemma not_in_filtered_out (p : Call -> bool) (c : Call) (l : list Call) :
  p c = true -> filter p l = [] -> ~ In c l.
Proof.
  intros Hc Hl Hin.
  assert (Hf : In c (filter p l)) by (apply filter_In; split; assumption).
  rewrite Hl in Hf. exact Hf.
Qed.

End Traces.

(** Normalises the trace of a run and the filters applied to it. *)
Ltac trace_filters :=
  cbn [trace committed pending];
  repeat rewrite filter_app;
  repeat rewrite adjust_calls_are_adjustments;
  repeat rewrite adjust_calls_no_cancellation;
  repeat rewrite adjust_calls_no_response;
  cbn [filter is_adjustment is_cancellation is_response app];
  repeat rewrite app_nil_r.

Section Claims.

Context {P : Platform}.

Local Abbreviation fid req := (params_fulfillment_id req).
Local Abbreviation orders req := (orderService (scope req)).
Local Abbreviation fulfillments req := (fulfillmentService (scope req)).
Local Abbreviation variants req :=
  (productVariantInventoryService (scope req)).

(** C1. When the fulfillment fetched for the path's fulfillment id has an
    [order_id] other than the path's order id, the handler throws a
    [MedusaError] of type NOT_FOUND whose message contains the fulfillment
    id and the order id.  The only call it has made is the fetch: no
    transaction is opened, [cancelFulfillment] and [adjustInventory] are
    not invoked, and the database is as the fetch left it. *)
Theorem mismatch_is_not_found_without_mutation
    (req : Request) (w w1 : World) (f : Fulfillment) :
  retrieve (fulfillments req) (fid req) None w = (Ok f, w1) ->
  strict_neq (order_id f) (params_id req) = true ->
  exists (message : string) (st : Store),
    handler req (initial w) = (Throw (MedusaError NOT_FOUND message), st) /\
    occurs_in (fid req) message /\
    occurs_in (params_id req) message /\
    trace st = [FulfillmentRetrieve DefaultManager (fid req) None] /\
    filter is_cancellation (trace st) = [] /\
    filter is_adjustment (trace st) = [] /\
    committed st = w1 /\
    pending st = None.
Proof.
  intros Hfetch Hneq.
  eexists. eexists.
  split; [exact (handler_rejects req w w1 f Hfetch Hneq)|].
  cbn [trace committed pending filter is_cancellation is_adjustment].
  repeat split.
  - unfold not_found_message. apply occurs_in_middle.
  - unfold not_found_message.
    exists ("no fulfillment was found with the id: " ++ fid req
              ++ " related to order: ")%string, ""%string.
    rewrite string_app_nil_r, !string_app_assoc. reflexivity.
Qed.

(** C2. The helper makes, whatever it is given, one [adjustInventory] call
    per item whose order item has a (truthy) [variant_id], in item order,
    each with that item's [variant_id], the fulfillment's [location_id]
    and the item's [quantity], and none for the other items.  In the
    handler, when the fulfillment fetched inside the transaction has a
    (truthy) [location_id] and the inventory service is present, the
    [adjustInventory] calls of the whole run are exactly those, made
    through the transaction's manager. *)
Theorem adjusts_once_per_item_with_variant :
  (forall (f : Fulfillment) (context : AdjustContext) (st : Store),
      exists (r : Outcome unit) (st' : Store),
        adjustInventoryForCancelledFulfillment f context st = (r, st') /\
        trace st' =
        trace st ++
        map (fun fi : FulfillmentItem =>
               AdjustInventory
                 (bound_to (ctx_productVariantInventoryService context))
                 (variant_id (item fi)) (location_id f) (quantity fi))
            (filter (fun fi => truthy (variant_id (item fi))) (items f)))
  /\
  (forall (req : Request) (w w1 w2 w3 : World) (f f1 : Fulfillment)
          (o : Order) (inventory : IInventoryService),
      retrieve (fulfillments req) (fid req) None w = (Ok f, w1) ->
      strict_neq (order_id f) (params_id req) = false ->
      cancelFulfillment (orders req) (fid req) w1 = (Ok o, w2) ->
      retrieve (fulfillments req) (fid req) with_items w2 = (Ok f1, w3) ->
      truthy (location_id f1) = true ->
      inventoryService (scope req) = Some inventory ->
      filter is_adjustment (trace (snd (handler req (initial w)))) =
      map (fun fi : FulfillmentItem =>
             AdjustInventory TransactionManager
               (variant_id (item fi)) (location_id f1) (quantity fi))
          (filter (fun fi => truthy (variant_id (item fi))) (items f1))).
Proof.
  split.
  - intros f context st. exact (helper_trace f context st).
  - intros req w w1 w2 w3 f f1 o inventory Hfetch Heq Hcancel Hagain
      Hloc Hinv.
    rewrite (handler_passes req w w1 f Hfetch Heq).
    unfold at_transaction_start. rewrite in_transaction_run.
    rewrite Hcancel, Hagain.
    unfold calls_in_transaction, adjusts_inventory.
    rewrite Hloc, Hinv. cbn [andb truthy_obj].
    fold (adjust_calls TransactionManager (location_id f1) (items f1)).
    destruct (awaited_adjustments req f1 w3) as [[]|e].
    + cbn [pending trace].
      destruct (retrieveWithTotals _ _ _ _ _) as [[order|e] w5];
        cbn [snd]; trace_filters; reflexivity.
    + cbn [snd]. trace_filters. reflexivity.
Qed.

(** What a rolled-back run looks like from outside: the handler throws,
    the committed database is [w1], no transaction is left open, and the
    trace has a rollback and no commit. *)
Lemma rejected_adjustment_rolls_back
    (req : Request) (w w1 w2 w3 : World) (f f1 : Fulfillment) (o : Order)
    (e : exn) :
  promiseAll_keeps_reasons ->
  retrieve (fulfillments req) (fid req) None w = (Ok f, w1) ->
  strict_neq (order_id f) (params_id req) = false ->
  cancelFulfillment (orders req) (fid req) w1 = (Ok o, w2) ->
  retrieve (fulfillments req) (fid req) with_items w2 = (Ok f1, w3) ->
  adjusts_inventory req f1 = true ->
  In (Throw e)
     (adjust_outcomes (variants req) (location_id f1) (items f1) w3) ->
  (exists e' : exn,
      fst (handler req (initial w)) = Throw e' /\
      In (Throw e')
         (adjust_outcomes (variants req) (location_id f1) (items f1) w3)) /\
  committed (snd (handler req (initial w))) = w1 /\
  pending (snd (handler req (initial w))) = None /\
  ~ In TransactionCommit (trace (snd (handler req (initial w)))) /\
  In TransactionRollback (trace (snd (handler req (initial w)))).
Proof.
  intros Hkeeps Hfetch Heq Hcancel Hagain Hadj Hin.
  rewrite (handler_passes req w w1 f Hfetch Heq).
  unfold at_transaction_start. rewrite in_transaction_run.
  rewrite Hcancel, Hagain.
  unfold awaited_adjustments, calls_in_transaction. rewrite Hadj.
  pose proof (Hkeeps (adjust_outcomes (variants req) (location_id f1)
                        (items f1) w3)) as Hk.
  destruct (promiseAll unit _) as [vs|e']; [exfalso; exact (Hk e Hin)|].
  cbn [fst snd committed pending trace].
  split; [exists e'; split; [reflexivity|exact Hk]|].
  split; [reflexivity|]. split; [reflexivity|]. split.
  - apply (not_in_filtered_out is_commit); [reflexivity|].
    repeat rewrite filter_app.
    rewrite (adjust_calls_filtered_out is_commit)
      by (intros [] Hc; try discriminate Hc; reflexivity).
    reflexivity.
  - apply in_or_app. right. left. reflexivity.
Qed.

(** C3. Whatever makes the callback of the transaction throw, the handler
    throws that value and the committed database is the one the
    transaction started from: nothing the callback did takes effect.  In
    particular, with a [promiseAll] that rejects when a promise rejected:
    when [cancelFulfillment] has succeeded and an [adjustInventory] call of
    the fan-out then throws, whatever the order in which the calls
    complete, the handler throws the value one of the failing calls threw,
    the transaction is rolled back and not committed, and neither the
    cancellation nor any adjustment is in the committed database.
    Conversely, when the transaction returns, it commits the database left
    by the cancellation, the fetch and all the adjustments, and none of
    the adjustments had failed. *)
Theorem failed_transaction_rolls_back :
  (forall (req : Request) (w w1 : World) (f : Fulfillment) (e : exn)
          (st2 : Store),
      retrieve (fulfillments req) (fid req) None w = (Ok f, w1) ->
      strict_neq (order_id f) (params_id req) = false ->
      in_transaction req TransactionManager (at_transaction_start req w1) =
      (Throw e, st2) ->
      handler req (initial w) =
      (Throw e,
       {| committed := w1; pending := None;
          trace := trace st2 ++ [TransactionRollback] |}))
  /\
  (promiseAll_keeps_reasons ->
   forall (req : Request) (w w1 w2 w3 : World) (f f1 : Fulfillment)
          (o : Order) (fi : FulfillmentItem) (e : exn),
      retrieve (fulfillments req) (fid req) None w = (Ok f, w1) ->
      strict_neq (order_id f) (params_id req) = false ->
      cancelFulfillment (orders req) (fid req) w1 = (Ok o, w2) ->
      retrieve (fulfillments req) (fid req) with_items w2 = (Ok f1, w3) ->
      adjusts_inventory req f1 = true ->
      In fi (items f1) ->
      truthy (variant_id (item fi)) = true ->
      (forall w' : World,
          fst (adjustInventory (variants req) (variant_id (item fi))
                 (location_id f1) (quantity fi) w') = Throw e) ->
      (exists e' : exn,
          fst (handler req (initial w)) = Throw e' /\
          In (Throw e')
             (adjust_outcomes (variants req) (location_id f1) (items f1)
                w3)) /\
      committed (snd (handler req (initial w))) = w1 /\
      pending (snd (handler req (initial w))) = None /\
      ~ In TransactionCommit (trace (snd (handler req (initial w)))) /\
      In TransactionRollback (trace (snd (handler req (initial w)))))
  /\
  (promiseAll_keeps_reasons ->
   forall (req : Request) (w w1 w2 w3 : World) (f f1 : Fulfillment)
          (o : Order) (e : exn),
      retrieve (fulfillments req) (fid req) None w = (Ok f, w1) ->
      strict_neq (order_id f) (params_id req) = false ->
      cancelFulfillment (orders req) (fid req) w1 = (Ok o, w2) ->
      retrieve (fulfillments req) (fid req) with_items w2 = (Ok f1, w3) ->
      adjusts_inventory req f1 = true ->
      In (Throw e)
         (adjust_outcomes (variants req) (location_id f1) (items f1) w3) ->
      (exists e' : exn,
          fst (handler req (initial w)) = Throw e' /\
          In (Throw e')
             (adjust_outcomes (variants req) (location_id f1) (items f1)
                w3)) /\
      committed (snd (handler req (initial w))) = w1 /\
      pending (snd (handler req (initial w))) = None /\
      ~ In TransactionCommit (trace (snd (handler req (initial w)))) /\
      In TransactionRollback (trace (snd (handler req (initial w)))))
  /\
  (forall (req : Request) (w1 : World) (tr : list Call),
      let run :=
        transaction DefaultManager (in_transaction req)
          {| committed := w1; pending := None; trace := tr |} in
      pending (snd run) = None /\
      match fst run with
      | Throw _ => committed (snd run) = w1
      | Ok _ =>
          exists (o : Order) (w2 w3 : World) (f1 : Fulfillment),
            cancelFulfillment (orders req) (fid req) w1 = (Ok o, w2) /\
            retrieve (fulfillments req) (fid req) with_items w2 =
            (Ok f1, w3) /\
            committed (snd run) =
            (if adjusts_inventory req f1
             then adjust_world (variants req) (location_id f1)
                    (items f1) w3
             else w3) /\
            (promiseAll_keeps_reasons ->
             adjusts_inventory req f1 = true ->
             forall e : exn,
               ~ In (Throw e)
                   (adjust_outcomes (variants req) (location_id f1)
                      (items f1) w3))
      end).
Proof.
  split; [|split; [|split]].
  - intros req w w1 f e st2 Hfetch Heq Hfail.
    rewrite (handler_passes req w w1 f Hfetch Heq), Hfail. reflexivity.
  - intros Hkeeps req w w1 w2 w3 f f1 o fi e Hfetch Heq Hcancel Hagain
      Hadj Hfi Hvariant Hthrows.
    apply (rejected_adjustment_rolls_back req w w1 w2 w3 f f1 o e);
      try assumption.
    exact (adjustment_that_always_throws _ _ _ _ fi w3 Hfi Hvariant
             Hthrows).
  - intros Hkeeps req w w1 w2 w3 f f1 o e.
    exact (rejected_adjustment_rolls_back req w w1 w2 w3 f f1 o e Hkeeps).
  - intros req w1 tr run. subst run.
    rewrite transaction_run, in_transaction_run.
    destruct (cancelFulfillment (orders req) (fid req) w1)
      as [[o|e] w2] eqn:Hcancel; [|cbn; auto].
    destruct (retrieve (fulfillments req) (fid req) with_items w2)
      as [[f1|e] w3] eqn:Hagain; [|cbn; auto].
    destruct (awaited_adjustments req f1 w3) as [[]|e] eqn:Hawait;
      [|cbn; auto].
    cbn [fst snd committed pending]. split; [reflexivity|].
    exists o, w2, w3, f1.
    split; [reflexivity || assumption|].
    split; [reflexivity || assumption|]. split; [reflexivity|].
    intros Hkeeps Hadj e.
    unfold awaited_adjustments in Hawait. rewrite Hadj in Hawait.
    pose proof (Hkeeps (adjust_outcomes (variants req) (location_id f1)
                          (items f1) w3)) as Hk.
    destruct (promiseAll unit _) as [vs|e']; [exact (Hk e)|].
    discriminate Hawait.
Qed.

(** C4. When the fulfillment fetched inside the transaction has no
    (truthy) [location_id], or no inventory service is configured, and the
    cancellation and the fetch succeed, the run contains no
    [adjustInventory] call, [cancelFulfillment] has been invoked once
    through the transaction's manager, and the transaction commits the
    database the cancellation produced: the order is reloaded from it. *)
Theorem no_location_or_no_inventory_service_only_cancels
    (req : Request) (w w1 w2 w3 : World) (f f1 : Fulfillment) (o : Order) :
  retrieve (fulfillments req) (fid req) None w = (Ok f, w1) ->
  strict_neq (order_id f) (params_id req) = false ->
  cancelFulfillment (orders req) (fid req) w1 = (Ok o, w2) ->
  retrieve (fulfillments req) (fid req) with_items w2 = (Ok f1, w3) ->
  truthy (location_id f1) = false \/ inventoryService (scope req) = None ->
  let load :=
    retrieveWithTotals (orders req) (params_id req) (retrieveConfig req)
      (includes req) w3 in
  let st := snd (handler req (initial w)) in
  filter is_adjustment (trace st) = [] /\
  filter is_cancellation (trace st) =
  [OrderCancelFulfillment TransactionManager (fid req)] /\
  In TransactionCommit (trace st) /\
  ~ In TransactionRollback (trace st) /\
  committed st = snd load /\
  fst (handler req (initial w)) =
  match fst load with Ok _ => Ok tt | Throw e => Throw e end.
Proof.
  intros Hfetch Heq Hcancel Hagain Hguard load st. subst load st.
  assert (Hadj : adjusts_inventory req f1 = false).
  { unfold adjusts_inventory.
    destruct Hguard as [-> | ->]; [reflexivity|].
    apply andb_false_r. }
  rewrite (handler_passes req w w1 f Hfetch Heq).
  unfold at_transaction_start. rewrite in_transaction_run.
  rewrite Hcancel, Hagain.
  unfold awaited_adjustments, world_in_transaction, calls_in_transaction.
  rewrite Hadj. cbn [pending trace app].
  destruct (retrieveWithTotals (orders req) (params_id req)
              (retrieveConfig req) (includes req) w3) as [[order|e] w5];
    cbn [fst snd committed trace app filter is_adjustment is_cancellation];
    (repeat split; [cbn; tauto|]);
    cbn; intros H; repeat destruct H as [H|H]; try discriminate H; exact H.
Qed.

(** C5. A run that succeeds made its calls in this order: the first fetch;
    the start of the transaction; [cancelFulfillment]; the fetch with
    relations [items] and [items.item]; the inventory adjustments, if the
    guard holds; the commit; the reload of the order with totals; the
    response.  The calls between start and commit go through the
    transaction's manager, the others through the container's.  In any
    run, successful or not, every [adjustInventory] call comes after the
    [cancelFulfillment] call. *)
Theorem calls_are_made_in_order (req : Request) (w : World) :
  (forall st : Store,
      handler req (initial w) = (Ok tt, st) ->
      exists (f1 : Fulfillment) (order : Order),
        trace st =
        [FulfillmentRetrieve DefaultManager (fid req) None;
         TransactionBegin;
         OrderCancelFulfillment TransactionManager (fid req);
         FulfillmentRetrieve TransactionManager (fid req)
           (Some ["items"; "items.item"]%string)]
        ++ (if truthy (location_id f1)
               && truthy_obj (inventoryService (scope req))
            then
              map (fun fi : FulfillmentItem =>
                     AdjustInventory TransactionManager
                       (variant_id (item fi)) (location_id f1)
                       (quantity fi))
                  (filter (fun fi => truthy (variant_id (item fi)))
                     (items f1))
            else [])
        ++ [TransactionCommit;
            OrderRetrieveWithTotals DefaultManager (params_id req)
              (retrieveConfig req) (includes req);
            ResJson [("order"%string, cleanResponseData order [])]])
  /\
  (forall (r : Outcome unit) (st : Store) (before after : list Call)
          (c : Call),
      handler req (initial w) = (r, st) ->
      trace st = before ++ c :: after ->
      is_adjustment c = true ->
      In (OrderCancelFulfillment TransactionManager (fid req)) before).
Proof.
  split.
  - intros st Hrun. apply handler_cases in Hrun.
    inversion Hrun; subst.
    exists f1, order. cbn [trace at_transaction_start].
    unfold calls_in_transaction, reload_call, with_items,
      adjusts_inventory, adjust_calls, has_variant, adjust_call.
    rewrite <- !app_assoc. reflexivity.
  - intros r st before after c Hrun Hsplit Hc.
    apply handler_cases in Hrun.
    assert (Hshape :
      (exists rest,
          trace st =
          [FulfillmentRetrieve DefaultManager (fid req) None;
           TransactionBegin;
           OrderCancelFulfillment TransactionManager (fid req)] ++ rest)
      \/ trace st = [FulfillmentRetrieve DefaultManager (fid req) None]).
    { inversion Hrun; subst; cbn [trace at_transaction_start];
        unfold calls_in_transaction;
        solve [right; reflexivity
              | left; eexists; cbn [app]; reflexivity]. }
    destruct Hshape as [[rest Hshape]|Hshape]; rewrite Hshape in Hsplit.
    + destruct (occurs_after_prefix is_adjustment _ _ _ _ _
                  Hsplit eq_refl Hc) as [mid ->].
      apply in_or_app. left. cbn. auto.
    + rewrite <- (app_nil_r [_]) in Hsplit.
      destruct (occurs_after_prefix is_adjustment _ _ _ _ _
                  Hsplit eq_refl Hc) as [mid ->].
      rewrite <- app_assoc in Hsplit.
      apply app_inv_head in Hsplit.
      destruct mid; discriminate Hsplit.
Qed.

(** C6. A run that succeeds ends like this: the transaction has
    committed; then the order is reloaded with [retrieveWithTotals],
    through the container's manager, with the path's order id, the
    request's retrieve configuration and its includes, on the committed
    database; then the response is sent, once: an object whose only key
    is [order], holding [cleanResponseData] of the reloaded order with an
    empty list. *)
Theorem success_responds_with_reloaded_order
    (req : Request) (w : World) (st : Store) :
  handler req (initial w) = (Ok tt, st) ->
  exists (f : Fulfillment) (w1 : World) (st_tx : Store) (order : Order)
         (body : list Call),
    retrieve (fulfillments req) (fid req) None w = (Ok f, w1) /\
    transaction DefaultManager (in_transaction req)
      {| committed := w1; pending := None;
         trace := [FulfillmentRetrieve DefaultManager (fid req) None] |} =
    (Ok tt, st_tx) /\
    trace st_tx = body ++ [TransactionCommit] /\
    filter is_response (trace st_tx) = [] /\
    retrieveWithTotals (orders req) (params_id req) (retrieveConfig req)
      (includes req) (committed st_tx) = (Ok order, committed st) /\
    trace st =
    trace st_tx ++
    [OrderRetrieveWithTotals DefaultManager (params_id req)
       (retrieveConfig req) (includes req);
     ResJson [("order"%string, cleanResponseData order [])]].
Proof.
  intros Hrun. apply handler_cases in Hrun. inversion Hrun; subst.
  exists f, w1. eexists. exists order. eexists.
  split; [assumption|].
  split.
  { rewrite transaction_run, in_transaction_run.
    repeat match goal with
           | H : cancelFulfillment _ _ _ = _ |- _ => rewrite H; clear H
           | H : retrieve _ _ with_items _ = _ |- _ => rewrite H; clear H
           | H : awaited_adjustments _ _ _ = _ |- _ => rewrite H; clear H
           end.
    cbn [pending trace]. reflexivity. }
  cbn [trace committed at_transaction_start].
  split; [reflexivity|].
  split.
  { unfold calls_in_transaction.
    destruct (adjusts_inventory req f1); trace_filters; reflexivity. }
  split; [assumption|].
  unfold reload_call. rewrite <- !app_assoc. reflexivity.
Qed.


(** C8. The helper tests the item's [variant_id] and nothing else: an item
    with a (truthy) [variant_id] and quantity 0 gets its [adjustInventory]
    call, with quantity 0, and the number of calls made is the number of
    items with a [variant_id], whatever their quantities. *)
Theorem zero_quantity_is_adjusted
    (f : Fulfillment) (context : AdjustContext) (st : Store)
    (fi : FulfillmentItem) :
  In fi (items f) ->
  truthy (variant_id (item fi)) = true ->
  quantity fi = 0%Z ->
  exists (r : Outcome unit) (st' : Store) (made : list Call),
    adjustInventoryForCancelledFulfillment f context st = (r, st') /\
    trace st' = trace st ++ made /\
    In (AdjustInventory
          (bound_to (ctx_productVariantInventoryService context))
          (variant_id (item fi)) (location_id f) 0%Z) made /\
    length made =
    length (filter (fun fi' => truthy (variant_id (item fi'))) (items f)).
Proof.
  intros Hin Hvariant Hzero.
  destruct (helper_trace f context st) as (r & st' & Hrun & Htr).
  exists r, st',
    (adjust_calls (bound_to (ctx_productVariantInventoryService context))
       (location_id f) (items f)).
  split; [exact Hrun|]. split; [exact Htr|]. split.
  - unfold adjust_calls. apply in_map_iff. exists fi.
    split; [unfold adjust_call; rewrite Hzero; reflexivity|].
    apply filter_In. split; assumption.
  - unfold adjust_calls. apply length_map.
Qed.

(** C9. The handler tests [location_id] for truthiness.  When the
    fulfillment fetched inside the transaction has a [location_id] that is
    [undefined], [null] or the empty string, then even with an inventory
    service registered the run makes no [adjustInventory] call, while the
    cancellation proceeds: the calls of the run are the fetch, the start of
    the transaction, [cancelFulfillment], the fetch with relations, the
    commit and the reload (followed by the response when the reload
    succeeds), and the database the cancellation produced is committed. *)
Theorem falsy_location_skips_adjustment
    (req : Request) (w w1 w2 w3 : World) (f f1 : Fulfillment) (o : Order)
    (inventory : IInventoryService) :
  retrieve (fulfillments req) (fid req) None w = (Ok f, w1) ->
  strict_neq (order_id f) (params_id req) = false ->
  inventoryService (scope req) = Some inventory ->
  cancelFulfillment (orders req) (fid req) w1 = (Ok o, w2) ->
  retrieve (fulfillments req) (fid req) with_items w2 = (Ok f1, w3) ->
  location_id f1 = undefined \/ location_id f1 = null \/
  location_id f1 = value ""%string ->
  let load :=
    retrieveWithTotals (orders req) (params_id req) (retrieveConfig req)
      (includes req) w3 in
  let run := handler req (initial w) in
  trace (snd run) =
  [FulfillmentRetrieve DefaultManager (fid req) None;
   TransactionBegin;
   OrderCancelFulfillment TransactionManager (fid req);
   FulfillmentRetrieve TransactionManager (fid req) with_items;
   TransactionCommit;
   OrderRetrieveWithTotals DefaultManager (params_id req)
     (retrieveConfig req) (includes req)]
  ++ match fst load with
     | Ok order => [ResJson [("order"%string, cleanResponseData order [])]]
     | Throw _ => []
     end /\
  filter is_adjustment (trace (snd run)) = [] /\
  committed (snd run) = snd load /\
  fst run = match fst load with Ok _ => Ok tt | Throw e => Throw e end.
Proof.
  intros Hfetch Heq Hinv Hcancel Hagain Hloc load run. subst load run.
  assert (Hadj : adjusts_inventory req f1 = false).
  { unfold adjusts_inventory.
    destruct Hloc as [-> | [-> | ->]]; reflexivity. }
  rewrite (handler_passes req w w1 f Hfetch Heq).
  unfold at_transaction_start. rewrite in_transaction_run.
  rewrite Hcancel, Hagain.
  unfold awaited_adjustments, world_in_transaction, calls_in_transaction.
  rewrite Hadj. cbn [pending trace app].
  destruct (retrieveWithTotals (orders req) (params_id req)
              (retrieveConfig req) (includes req) w3) as [[order|e] w5];
    cbn [fst snd committed trace app filter is_adjustment];
    repeat split.
Qed.

(** C10. The fulfillment that decides whether inventory is adjusted, and
    that supplies the location, the items, their variants and quantities,
    is the one [f1] fetched through the transaction's manager on the
    database [cancelFulfillment] produced; the fulfillment [f] of the
    first fetch only serves the ownership check.  Every [adjustInventory]
    call of the run carries [f1]'s [location_id]. *)
Theorem adjustment_uses_fulfillment_fetched_in_transaction
    (req : Request) (w w1 w2 w3 : World) (f f1 : Fulfillment) (o : Order) :
  retrieve (fulfillments req) (fid req) None w = (Ok f, w1) ->
  strict_neq (order_id f) (params_id req) = false ->
  cancelFulfillment (orders req) (fid req) w1 = (Ok o, w2) ->
  retrieve (fulfillments req) (fid req) with_items w2 = (Ok f1, w3) ->
  let st := snd (handler req (initial w)) in
  filter is_adjustment (trace st) =
  (if truthy (location_id f1) && truthy_obj (inventoryService (scope req))
   then
     map (fun fi : FulfillmentItem =>
            AdjustInventory TransactionManager
              (variant_id (item fi)) (location_id f1) (quantity fi))
         (filter (fun fi => truthy (variant_id (item fi))) (items f1))
   else [])
  /\
  Forall (adjusts_at TransactionManager (location_id f1)) (trace st).
Proof.
  intros Hfetch Heq Hcancel Hagain st. subst st.
  rewrite (handler_passes req w w1 f Hfetch Heq).
  unfold at_transaction_start. rewrite in_transaction_run.
  rewrite Hcancel, Hagain.
  unfold calls_in_transaction.
  fold (adjusts_inventory req f1).
  fold (adjust_calls TransactionManager (location_id f1) (items f1)).
  pose proof (adjust_calls_adjust_at TransactionManager (location_id f1)
                (items f1)) as Hat.
  destruct (awaited_adjustments req f1 w3) as [[]|e];
    [cbn [pending trace];
     destruct (retrieveWithTotals _ _ _ _ _) as [[order|e] w5]|];
    cbn [snd]; destruct (adjusts_inventory req f1);
    (split; [trace_filters; reflexivity|]);
    cbn [trace]; repeat rewrite Forall_app; repeat split;
    try exact Hat; try (repeat constructor; cbn; auto; fail).
Qed.

End Claims.

(** ** Further properties of the helper and of the handler *)

Section Helper.

Context {P : Platform}.

(** Through the container's manager the adjustments complete on the
    committed database, whether or not a transaction is open. *)
Lemma settle_on_default_manager (pv : ProductVariantInventoryServiceMethods)
    (location : Nullable string) (l : list FulfillmentItem)
    (order : list nat) :
  forall st : Store,
    settle_in_order (map (pending_adjustment (resolve pv) location) l)
      order st =
    (fst (settle_in_order (map (adjustment pv location) l) order
            (committed st)),
     {| committed :=
          snd (settle_in_order (map (adjustment pv location) l) order
                 (committed st));
        pending := pending st;
        trace := trace st |}).
Proof.
  set (tasks := map (adjustment pv location) l).
  set (promises := map (pending_adjustment (resolve pv) location) l).
  induction order as [|k order IH]; intros st.
  - cbn. destruct st; reflexivity.
  - cbn [settle_in_order]. subst tasks promises. rewrite !nth_error_map.
    set (tasks := map (adjustment pv location) l) in *.
    set (promises := map (pending_adjustment (resolve pv) location) l) in *.
    destruct (nth_error l k) as [fi|]; cbn [option_map]; [|apply IH].
    unfold pending_adjustment, adjustment.
    destruct (has_variant fi).
    + unfold on_manager. cbn [resolve bound_to impl].
      destruct (adjustInventory pv (variant_id (item fi)) location
                  (quantity fi) (committed st)) as [r w1].
      rewrite IH. cbn [committed pending trace].
      destruct (settle_in_order tasks order w1) as [rs w2].
      reflexivity.
    + unfold ret. rewrite IH.
      destruct (settle_in_order tasks order (committed st)) as [rs w2].
      reflexivity.
Qed.

(** Items without a variant start no call and leave nothing to complete. *)
Lemma settle_without_variants (svc : ProductVariantInventoryService)
    (location : Nullable string) (l : list FulfillmentItem)
    (order : list nat) :
  (forall fi : FulfillmentItem,
      In fi l -> truthy (variant_id (item fi)) = false) ->
  forall st : Store,
    snd (settle_in_order (map (pending_adjustment svc location) l)
           order st) = st /\
    forall (k : nat) (r : Outcome unit),
      In (k, r)
         (fst (settle_in_order (map (pending_adjustment svc location) l)
                 order st)) ->
      r = Ok tt.
Proof.
  intros Hnone.
  induction order as [|k order IH]; intros st.
  - cbn. split; [reflexivity|]. intros k r [].
  - cbn [settle_in_order]. rewrite nth_error_map.
    destruct (nth_error l k) as [fi|] eqn:Hfi; cbn [option_map];
      [|apply IH].
    unfold pending_adjustment at 1 3. unfold has_variant.
    rewrite (Hnone fi (nth_error_In _ _ Hfi)). unfold ret.
    destruct (IH st) as [Hst Hrs].
    destruct (settle_in_order _ order st) as [rs st1].
    cbn [fst snd] in *. split; [exact Hst|].
    intros j r [Hin|Hin]; [inversion Hin; reflexivity|exact (Hrs j r Hin)].
Qed.

Lemma adjust_calls_without_variants (m : EntityManager)
    (location : Nullable string) (l : list FulfillmentItem) :
  (forall fi : FulfillmentItem,
      In fi l -> truthy (variant_id (item fi)) = false) ->
  adjust_calls m location l = [].
Proof.
  intros Hnone. unfold adjust_calls.
  induction l as [|fi l IH]; [reflexivity|].
  cbn [filter]. unfold has_variant at 1.
  rewrite (Hnone fi (or_introl eq_refl)).
  apply IH. intros fi' Hin. apply Hnone. right. exact Hin.
Qed.

Lemma adjust_calls_well_addressed (req : Request)
    (location : Nullable string) (l : list FulfillmentItem) :
  Forall (well_addressed req) (adjust_calls TransactionManager location l).
Proof.
  unfold adjust_calls. apply Forall_forall. intros c Hin.
  apply in_map_iff in Hin. destruct Hin as (fi & <- & Hfi).
  apply filter_In in Hfi. destruct Hfi as [_ Hv].
  cbn. split; [reflexivity|exact Hv].
Qed.

Lemma strict_neq_false_iff (v : Nullable string) (s : string) :
  strict_neq v s = false <-> v = value s.
Proof.
  destruct v as [| |s']; cbn; split; intros H; try discriminate H.
  - apply negb_false_iff, String.eqb_eq in H. subst. reflexivity.
  - inversion H; subst. rewrite String.eqb_refl. reflexivity.
Qed.

(** The helper, called with a service bound to the container's manager. *)
Lemma adjustInventoryForCancelledFulfillment_on_default_manager
    (pv : ProductVariantInventoryServiceMethods) (f : Fulfillment)
    (st : Store) :
  adjustInventoryForCancelledFulfillment f
    {| ctx_productVariantInventoryService := resolve pv |} st =
  (match promiseAll unit
           (adjust_outcomes pv (location_id f) (items f) (committed st)) with
   | Ok _ => Ok tt
   | Throw e => Throw e
   end,
   {| committed := adjust_world pv (location_id f) (items f) (committed st);
      pending := pending st;
      trace := trace st ++
               adjust_calls DefaultManager (location_id f) (items f) |}).
Proof.
  unfold adjustInventoryForCancelledFulfillment.
  cbn [ctx_productVariantInventoryService].
  unfold bind at 1. rewrite fan_out_started.
  unfold bind at 1. unfold all_settled.
  rewrite settle_on_default_manager. rewrite !length_map.
  unfold adjust_outcomes, adjust_world, adjust_settled.
  cbn [committed pending trace].
  destruct (settle_in_order _ _ (committed st)) as [rs w'].
  cbn [fst snd bound_to resolve].
  unfold bind, await, ret.
  destruct (promiseAll unit _); reflexivity.
Qed.

(** X1. Called with a service that is not bound to a transaction, the
    helper starts its calls in item order and lets each of them complete,
    once, on the committed database directly, in the order in which the
    calls complete, which the code does not fix; an open transaction's
    working copy is left alone.  What it returns or throws is decided by
    [promiseAll] afterwards, so the effects of the calls that succeeded stay
    also when it throws: the helper itself gives no atomicity. *)
Theorem helper_outside_transaction_is_not_atomic
    (pv : ProductVariantInventoryServiceMethods) (f : Fulfillment)
    (st : Store) :
  let run :=
    adjustInventoryForCancelledFulfillment f
      {| ctx_productVariantInventoryService := resolve pv |} st in
  let settled :=
    settle_in_order (map (adjustment pv (location_id f)) (items f))
      (completion (length (items f))) (committed st) in
  committed (snd run) = snd settled /\
  pending (snd run) = pending st /\
  trace (snd run) =
  trace st ++
  map (fun fi : FulfillmentItem =>
         AdjustInventory DefaultManager (variant_id (item fi))
           (location_id f) (quantity fi))
      (filter (fun fi => truthy (variant_id (item fi))) (items f)) /\
  fst run =
  match promiseAll unit (by_position (fst settled)) with
  | Ok _ => Ok tt
  | Throw e => Throw e
  end.
Proof.
  intros run settled. subst run settled.
  rewrite adjustInventoryForCancelledFulfillment_on_default_manager.
  cbn [fst snd committed pending trace]. repeat split.
Qed.

(** X2. When no item of the fulfillment has a (truthy) [variant_id], in
    particular when it has no items, the helper makes no call and leaves
    the store as it found it, whatever manager the service is bound to; with
    a [promiseAll] that rejects only when a promise rejected, it returns
    normally. *)
Theorem helper_without_variants_does_nothing
    (f : Fulfillment) (context : AdjustContext) (st : Store) :
  (forall fi : FulfillmentItem,
      In fi (items f) -> truthy (variant_id (item fi)) = false) ->
  snd (adjustInventoryForCancelledFulfillment f context st) = st /\
  (promiseAll_keeps_reasons ->
   adjustInventoryForCancelledFulfillment f context st = (Ok tt, st)).
Proof.
  intros Hnone.
  assert (Hrun : exists rs : list (nat * Outcome unit),
             (forall (k : nat) (r : Outcome unit),
                 In (k, r) rs -> r = Ok tt) /\
             adjustInventoryForCancelledFulfillment f context st =
             (match promiseAll unit (by_position rs) with
              | Ok _ => Ok tt
              | Throw e => Throw e
              end, st)).
  { unfold adjustInventoryForCancelledFulfillment.
    unfold bind at 1. rewrite fan_out_started.
    rewrite (adjust_calls_without_variants _ _ _ Hnone), app_nil_r.
    replace {| committed := committed st; pending := pending st;
               trace := trace st |} with st by (destruct st; reflexivity).
    unfold bind at 1. unfold all_settled.
    destruct (settle_without_variants
                (ctx_productVariantInventoryService context)
                (location_id f) (items f)
                (completion (length (map (pending_adjustment
                   (ctx_productVariantInventoryService context)
                   (location_id f)) (items f)))) Hnone st) as [Hst Hrs].
    destruct (settle_in_order _ _ st) as [rs st1].
    cbn [fst snd] in Hst, Hrs. subst st1.
    exists rs. split; [exact Hrs|].
    unfold bind, await, ret.
    destruct (promiseAll unit _); reflexivity. }
  destruct Hrun as (rs & Hrs & ->).
  split; [reflexivity|].
  intros Hkeeps.
  pose proof (Hkeeps (by_position rs)) as Hk.
  destruct (promiseAll unit _) as [vs|e]; [reflexivity|].
  exfalso. apply in_by_position in Hk. destruct Hk as (k & Hk).
  apply Hrs in Hk. discriminate Hk.
Qed.

(** X3. With a [promiseAll] that rejects exactly when a promise rejected,
    and with the reason of one of them, the helper returns normally only
    if none of the [adjustInventory] calls it made threw, and a value it
    throws is the value one of those calls threw.  This holds for a service
    bound to the container's manager and for one bound to an open
    transaction, [w] being the database that binding acts on. *)
Theorem helper_throws_what_an_adjustment_threw
    (pv : ProductVariantInventoryServiceMethods) (f : Fulfillment)
    (st : Store) (m : EntityManager) (w : World) :
  promiseAll_keeps_reasons ->
  database_of m st = Some w ->
  match fst (adjustInventoryForCancelledFulfillment f
               {| ctx_productVariantInventoryService :=
                    withTransaction m (resolve pv) |} st) with
  | Ok _ =>
      forall e : exn,
        ~ In (Throw e) (adjust_outcomes pv (location_id f) (items f) w)
  | Throw e =>
      In (Throw e) (adjust_outcomes pv (location_id f) (items f) w) /\
      exists (fi : FulfillmentItem) (w' : World),
        In fi (items f) /\
        fst (adjustInventory pv (variant_id (item fi)) (location_id f)
               (quantity fi) w') = Throw e
  end.
Proof.
  intros Hkeeps Hw.
  pose proof (Hkeeps (adjust_outcomes pv (location_id f) (items f) w))
    as Hk.
  destruct m; cbn [database_of] in Hw.
  - inversion Hw; subst w.
    change (withTransaction DefaultManager (resolve pv)) with (resolve pv).
    rewrite adjustInventoryForCancelledFulfillment_on_default_manager.
    cbn [fst].
    destruct (promiseAll unit _) as [vs|e]; [exact Hk|].
    split; [exact Hk|exact (adjust_outcomes_reason _ _ _ _ _ Hk)].
  - rewrite (adjustInventoryForCancelledFulfillment_in_transaction
               pv f st w Hw).
    cbn [fst].
    destruct (promiseAll unit _) as [vs|e]; [exact Hk|].
    split; [exact Hk|exact (adjust_outcomes_reason _ _ _ _ _ Hk)].
Qed.

End Helper.

Section Discipline.

Context {P : Platform}.

Local Abbreviation fid req := (params_fulfillment_id req).
Local Abbreviation orders req := (orderService (scope req)).
Local Abbreviation fulfillments req := (fulfillmentService (scope req)).

Lemma calls_in_transaction_filtered_out (p : Call -> bool) (req : Request)
    (f1 : Fulfillment) :
  (forall c : Call, is_adjustment c = true -> p c = false) ->
  filter p (calls_in_transaction req f1) =
  filter p
    [OrderCancelFulfillment TransactionManager (fid req);
     FulfillmentRetrieve TransactionManager (fid req) with_items].
Proof.
  intros Hp. unfold calls_in_transaction. rewrite filter_app.
  destruct (adjusts_inventory req f1);
    [rewrite (adjust_calls_filtered_out p _ _ _ Hp)|cbn [filter]];
    apply app_nil_r.
Qed.

Lemma calls_in_transaction_well_addressed (req : Request)
    (f1 : Fulfillment) :
  Forall (well_addressed req) (calls_in_transaction req f1).
Proof.
  unfold calls_in_transaction. apply Forall_app. split.
  - constructor; [cbn; auto|].
    constructor; [|constructor].
    cbn. split; [reflexivity|]. right. split; reflexivity.
  - destruct (adjusts_inventory req f1);
      [apply adjust_calls_well_addressed|constructor].
Qed.

(** X4. The handler sends a response exactly when it returns: a run that
    throws has not called [res.json], a run that returns has called it
    once. *)
Theorem responds_exactly_on_success (req : Request) (w : World) :
  let run := handler req (initial w) in
  length (filter is_response (trace (snd run))) =
  match fst run with Ok _ => 1 | Throw _ => 0 end.
Proof.
  intros run. subst run.
  pose proof (handler_Run req w) as HR.
  destruct (handler req (initial w)) as [r st]. cbn [fst snd] in *.
  inversion HR; subst; cbn [trace at_transaction_start];
    repeat rewrite filter_app;
    try rewrite (calls_in_transaction_filtered_out is_response)
      by (intros [] Hc; try discriminate Hc; reflexivity);
    reflexivity.
Qed.

(** X5. The handler opens a transaction exactly when the first fetch
    returns a fulfillment whose [order_id] is the path's order id, compared
    as strings; a fulfillment whose [order_id] is [null] or [undefined]
    never gets that far. *)
Theorem transaction_opened_iff_owned (req : Request) (w : World) :
  In TransactionBegin (trace (snd (handler req (initial w)))) <->
  exists (f : Fulfillment) (w1 : World),
    retrieve (fulfillments req) (fid req) None w = (Ok f, w1) /\
    order_id f = value (params_id req).
Proof.
  pose proof (handler_Run req w) as HR.
  destruct (handler req (initial w)) as [r st]. cbn [fst snd] in *.
  split.
  - intros Hin.
    inversion HR; subst; cbn [trace] in Hin;
      try (destruct Hin as [Hin|[]]; discriminate Hin);
      match goal with
      | Hf : retrieve _ _ None w = (Ok ?f, ?w1),
        Hn : strict_neq _ _ = false |- _ =>
          exists f, w1; split; [exact Hf|];
          apply strict_neq_false_iff; exact Hn
      end.
  - intros (f & w1 & Hfetch & Howned).
    apply strict_neq_false_iff in Howned.
    inversion HR; subst;
      try match goal with
          | Hf : retrieve _ _ None w = _ |- _ =>
              rewrite Hfetch in Hf; inversion Hf; subst
          end;
      try congruence;
      cbn [trace at_transaction_start]; cbn; auto.
Qed.

(** X6. Every run ends outside any transaction, and its transaction calls
    are balanced: at most one transaction is begun, and a transaction that
    was begun is ended once, by a commit or by a rollback. *)
Theorem transaction_is_always_ended (req : Request) (w : World) :
  let st := snd (handler req (initial w)) in
  pending st = None /\
  length (filter is_begin (trace st)) <= 1 /\
  length (filter is_begin (trace st)) =
  length (filter is_commit (trace st))
  + length (filter is_rollback (trace st)).
Proof.
  intros st. subst st.
  pose proof (handler_Run req w) as HR.
  destruct (handler req (initial w)) as [r st]. cbn [fst snd] in *.
  inversion HR; subst; cbn [trace pending at_transaction_start];
    repeat rewrite filter_app;
    try rewrite (calls_in_transaction_filtered_out is_begin)
      by (intros [] Hc; try discriminate Hc; reflexivity);
    try rewrite (calls_in_transaction_filtered_out is_commit)
      by (intros [] Hc; try discriminate Hc; reflexivity);
    try rewrite (calls_in_transaction_filtered_out is_rollback)
      by (intros [] Hc; try discriminate Hc; reflexivity);
    cbn; repeat split; lia.
Qed.

(** X7. In every run, whatever its outcome, each call is addressed as the
    source writes it: the cancellation, the second fetch and every
    inventory adjustment go through the transaction's manager, the first
    fetch and the reload through the container's; fetches and the
    cancellation carry the path's fulfillment id, the reload the path's
    order id with the request's configuration and includes; an adjustment
    is only ever made for a truthy variant. *)
Theorem every_call_is_well_addressed (req : Request) (w : World) :
  Forall (well_addressed req) (trace (snd (handler req (initial w)))).
Proof.
  pose proof (handler_Run req w) as HR.
  destruct (handler req (initial w)) as [r st]. cbn [fst snd] in *.
  pose proof (calls_in_transaction_well_addressed req) as Hcalls.
  inversion HR; subst; cbn [trace at_transaction_start];
    unfold reload_call;
    rewrite ?Forall_app; repeat split;
    try apply Hcalls;
    repeat (constructor; [cbn; intuition congruence|]);
    constructor.
Qed.

(** X8. The reload of the order is outside the transaction: when it throws,
    the handler throws that value without having responded, but the
    transaction has been committed and is not rolled back, so the
    cancellation and the adjustments stay in the database. *)
Theorem failed_reload_keeps_the_cancellation
    (req : Request) (w w1 w2 w3 w5 : World) (f f1 : Fulfillment)
    (o : Order) (e : exn) :
  retrieve (fulfillments req) (fid req) None w = (Ok f, w1) ->
  strict_neq (order_id f) (params_id req) = false ->
  cancelFulfillment (orders req) (fid req) w1 = (Ok o, w2) ->
  retrieve (fulfillments req) (fid req) with_items w2 = (Ok f1, w3) ->
  awaited_adjustments req f1 w3 = Ok tt ->
  retrieveWithTotals (orders req) (params_id req) (retrieveConfig req)
    (includes req) (world_in_transaction req f1 w3) = (Throw e, w5) ->
  let run := handler req (initial w) in
  fst run = Throw e /\
  committed (snd run) = w5 /\
  In TransactionCommit (trace (snd run)) /\
  ~ In TransactionRollback (trace (snd run)) /\
  filter is_response (trace (snd run)) = [].
Proof.
  intros Hfetch Heq Hcancel Hagain Hawait Hload run. subst run.
  rewrite (handler_passes req w w1 f Hfetch Heq).
  unfold at_transaction_start. rewrite in_transaction_run.
  rewrite Hcancel, Hagain, Hawait. cbn [pending trace].
  rewrite Hload. cbn [fst snd committed trace].
  split; [reflexivity|]. split; [reflexivity|].
  split; [|split].
  - apply in_or_app. right. left. reflexivity.
  - intros Hin. rewrite !in_app_iff in Hin.
    assert (Hnone : forall l : list Call,
               filter is_rollback l = [] -> ~ In TransactionRollback l).
    { intros l Hl Hin'.
      assert (Hf : In TransactionRollback (filter is_rollback l))
        by (apply filter_In; split; [exact Hin'|reflexivity]).
      rewrite Hl in Hf. exact Hf. }
    destruct Hin as [[Hin|Hin]|Hin].
    + revert Hin. apply Hnone. reflexivity.
    + revert Hin. apply Hnone.
      rewrite (calls_in_transaction_filtered_out is_rollback)
        by (intros [] Hc; try discriminate Hc; reflexivity).
      reflexivity.
    + revert Hin. apply Hnone. reflexivity.
  - repeat rewrite filter_app.
    rewrite (calls_in_transaction_filtered_out is_response)
      by (intros [] Hc; try discriminate Hc; reflexivity).
    reflexivity.
Qed.

End Discipline.

(** ** The properties on the concrete platform *)

(** The demo's [promiseAll] rejects exactly when a promise rejected, with
    the reason of the first one. *)
Lemma settle_all_keeps_reasons {T} (ps : list (Outcome T)) :
  match Demo.settle_all ps with
  | Throw e => In (Throw e) ps
  | Ok _ => forall e : exn, ~ In (Throw e) ps
  end.
Proof.
  induction ps as [|[v|e] ps IH]; cbn.
  - intros e [].
  - destruct (Demo.settle_all ps) as [vs|e].
    + intros e [H|H]; [discriminate H|exact (IH e H)].
    + right. exact IH.
  - left. reflexivity.
Qed.

Import Demo.
Local Open Scope string_scope.

Lemma mismatch_is_not_found_without_mutation_witness :
  exists (message : string) (st : Store),
    handler (request "order_2" "ful_1" (Some tt)) (initial db0) =
    (Throw (MedusaError NOT_FOUND message), st) /\
    occurs_in "ful_1" message /\
    occurs_in "order_2" message /\
    trace st = [FulfillmentRetrieve DefaultManager "ful_1" None] /\
    filter is_cancellation (trace st) = [] /\
    filter is_adjustment (trace st) = [] /\
    committed st = db0 /\
    pending st = None.
Proof.
  apply (mismatch_is_not_found_without_mutation
           (request "order_2" "ful_1" (Some tt)) db0 db0 (bare ful_1));
    reflexivity.
Defined.

Lemma adjusts_once_per_item_with_variant_witness :
  filter is_adjustment
    (trace (snd (handler (request "order_1" "ful_1" (Some tt))
                   (initial db0)))) =
  [AdjustInventory TransactionManager (value "variant_a") (value "loc_1") 2;
   AdjustInventory TransactionManager (value "variant_b") (value "loc_1") 0].
Proof.
  apply (proj2 adjusts_once_per_item_with_variant
           (request "order_1" "ful_1" (Some tt))
           db0 db0 (db_canceled "ful_1") (db_canceled "ful_1")
           (bare ful_1) ful_1 ("order", ["ful_1"]) tt);
    reflexivity.
Defined.

Lemma failed_transaction_rolls_back_witness :
  let run := handler (request "order_2" "ful_4" (Some tt)) (initial db0) in
  (exists e' : exn,
      fst run = Throw e' /\
      In (Throw e')
         (adjust_outcomes
            (productVariantInventoryService (container (Some tt)))
            (value "loc_1") (items ful_4) (db_canceled "ful_4"))) /\
  committed (snd run) = db0 /\
  pending (snd run) = None /\
  ~ In TransactionCommit (trace (snd run)) /\
  In TransactionRollback (trace (snd run)).
Proof.
  apply (proj1 (proj2 (@failed_transaction_rolls_back platform))
           (fun ps => settle_all_keeps_reasons ps)
           (request "order_2" "ful_4" (Some tt))
           db0 db0 (db_canceled "ful_4") (db_canceled "ful_4")
           (bare ful_4) ful_4 ("order", ["ful_4"])
           (line (value "variant_gone") 1)
           (MedusaError NOT_FOUND "Variant was not found"));
    first [reflexivity | cbn; tauto].
Defined.

Lemma no_location_or_no_inventory_service_only_cancels_witness :
  let run := handler (request "order_1" "ful_2" (Some tt)) (initial db0) in
  filter is_adjustment (trace (snd run)) = [] /\
  filter is_cancellation (trace (snd run)) =
  [OrderCancelFulfillment TransactionManager "ful_2"] /\
  In TransactionCommit (trace (snd run)) /\
  ~ In TransactionRollback (trace (snd run)) /\
  committed (snd run) = db_canceled "ful_2" /\
  fst run = Ok tt.
Proof.
  apply (no_location_or_no_inventory_service_only_cancels
           (request "order_1" "ful_2" (Some tt))
           db0 db0 (db_canceled "ful_2") (db_canceled "ful_2")
           (bare ful_2) ful_2 ("order", ["ful_2"]));
    try reflexivity.
  left. reflexivity.
Defined.

Lemma calls_are_made_in_order_witness :
  let run := handler (request "order_1" "ful_1" (Some tt)) (initial db0) in
  trace (snd run) =
  [FulfillmentRetrieve DefaultManager "ful_1" None;
   TransactionBegin;
   OrderCancelFulfillment TransactionManager "ful_1";
   FulfillmentRetrieve TransactionManager "ful_1"
     (Some ["items"; "items.item"]);
   AdjustInventory TransactionManager (value "variant_a") (value "loc_1") 2;
   AdjustInventory TransactionManager (value "variant_b") (value "loc_1") 0;
   TransactionCommit;
   OrderRetrieveWithTotals DefaultManager "order_1" ["items"] [];
   ResJson [("order", ("order_1", ["ful_1"]))]] /\
  In (OrderCancelFulfillment TransactionManager "ful_1")
     (firstn 4 (trace (snd run))).
Proof.
  intros run. split.
  - reflexivity.
  - apply (proj2 (calls_are_made_in_order
                    (request "order_1" "ful_1" (Some tt)) db0)
             (fst run) (snd run)
             (firstn 4 (trace (snd run)))
             (skipn 5 (trace (snd run)))
             (AdjustInventory TransactionManager (value "variant_a")
                (value "loc_1") 2));
      reflexivity.
Defined.

Lemma success_responds_with_reloaded_order_witness :
  exists (f : Fulfillment) (w1 : World) (st_tx : Store) (order : Order)
         (body : list Call),
    retrieve (fulfillmentService (container (Some tt))) "ful_1" None db0 =
    (Ok f, w1) /\
    transaction DefaultManager
      (in_transaction (request "order_1" "ful_1" (Some tt)))
      {| committed := w1; pending := None;
         trace := [FulfillmentRetrieve DefaultManager "ful_1" None] |} =
    (Ok tt, st_tx) /\
    trace st_tx = (body ++ [TransactionCommit])%list /\
    filter is_response (trace st_tx) = [] /\
    retrieveWithTotals (orderService (container (Some tt))) "order_1"
      ["items"] [] (committed st_tx) =
    (Ok order,
     committed (snd (handler (request "order_1" "ful_1" (Some tt))
                       (initial db0)))) /\
    trace (snd (handler (request "order_1" "ful_1" (Some tt))
                  (initial db0))) =
    (trace st_tx ++
     [OrderRetrieveWithTotals DefaultManager "order_1" ["items"] [];
      ResJson [("order", cleanResponseData order [])]])%list.
Proof.
  eapply (success_responds_with_reloaded_order
            (request "order_1" "ful_1" (Some tt)) db0).
  reflexivity.
Defined.


Lemma zero_quantity_is_adjusted_witness :
  exists (r : Outcome unit) (st' : Store) (made : list Call),
    adjustInventoryForCancelledFulfillment ful_1
      {| ctx_productVariantInventoryService :=
           resolve (productVariantInventoryService (container (Some tt))) |}
      (initial db0) = (r, st') /\
    trace st' = ([] ++ made)%list /\
    In (AdjustInventory DefaultManager (value "variant_b") (value "loc_1") 0)
       made /\
    length made = 2.
Proof.
  apply (zero_quantity_is_adjusted ful_1
           {| ctx_productVariantInventoryService :=
                resolve (productVariantInventoryService
                           (container (Some tt))) |}
           (initial (P := platform) db0) (line (value "variant_b") 0)).
  - cbn. auto.
  - reflexivity.
  - reflexivity.
Defined.

Lemma falsy_location_skips_adjustment_witness :
  let run := handler (request "order_1" "ful_3" (Some tt)) (initial db0) in
  trace (snd run) =
  [FulfillmentRetrieve DefaultManager "ful_3" None;
   TransactionBegin;
   OrderCancelFulfillment TransactionManager "ful_3";
   FulfillmentRetrieve TransactionManager "ful_3" with_items;
   TransactionCommit;
   OrderRetrieveWithTotals DefaultManager "order_1" ["items"] [];
   ResJson [("order", ("order_1", ["ful_3"]))]] /\
  filter is_adjustment (trace (snd run)) = [] /\
  committed (snd run) = db_canceled "ful_3" /\
  fst run = Ok tt.
Proof.
  apply (falsy_location_skips_adjustment
           (request "order_1" "ful_3" (Some tt))
           db0 db0 (db_canceled "ful_3") (db_canceled "ful_3")
           (bare ful_3) ful_3 ("order", ["ful_3"]) tt);
    try reflexivity.
  right. right. reflexivity.
Defined.

Lemma adjustment_uses_fulfillment_fetched_in_transaction_witness :
  let st :=
    snd (handler (request "order_1" "ful_1" (Some tt)) (initial db0)) in
  items (bare ful_1) = [] /\
  filter is_adjustment (trace st) =
  [AdjustInventory TransactionManager (value "variant_a") (value "loc_1") 2;
   AdjustInventory TransactionManager (value "variant_b") (value "loc_1") 0]
  /\
  Forall (adjusts_at TransactionManager (value "loc_1")) (trace st).
Proof.
  split; [reflexivity|].
  apply (adjustment_uses_fulfillment_fetched_in_transaction
           (request "order_1" "ful_1" (Some tt))
           db0 db0 (db_canceled "ful_1") (db_canceled "ful_1")
           (bare ful_1) ful_1 ("order", ["ful_1"]));
    reflexivity.
Defined.

Lemma helper_outside_transaction_is_not_atomic_witness :
  let run :=
    @adjustInventoryForCancelledFulfillment last_first ful_4
      context_last_first (@initial last_first db0) in
  fst run = Throw (MedusaError NOT_FOUND "Variant was not found") /\
  adjusted (committed (snd run)) =
  [("variant_b", "loc_1", 4%Z); ("variant_a", "loc_1", 3%Z)] /\
  pending (snd run) = None /\
  trace (snd run) =
  [@AdjustInventory last_first DefaultManager (value "variant_a")
     (value "loc_1") 3;
   @AdjustInventory last_first DefaultManager (value "variant_gone")
     (value "loc_1") 1;
   @AdjustInventory last_first DefaultManager (value "variant_b")
     (value "loc_1") 4].
Proof.
  intros run.
  destruct (@helper_outside_transaction_is_not_atomic last_first
              variants_last_first ful_4 (@initial last_first db0))
    as (Hcommitted & Hpending & Htrace & Hresult).
  split; [exact Hresult|].
  split; [subst run; unfold context_last_first; rewrite Hcommitted;
          reflexivity|].
  split; [exact Hpending|exact Htrace].
Defined.

Lemma helper_without_variants_does_nothing_witness :
  adjustInventoryForCancelledFulfillment ful_5
    {| ctx_productVariantInventoryService :=
         withTransaction TransactionManager
           (resolve (productVariantInventoryService
                       (container (Some tt)))) |}
    (initial db0) =
  (Ok tt, initial db0).
Proof.
  apply (proj2 (helper_without_variants_does_nothing ful_5
                  {| ctx_productVariantInventoryService :=
                       withTransaction TransactionManager
                         (resolve (productVariantInventoryService
                                     (container (Some tt)))) |}
                  (initial (P := platform) db0)
                  ltac:(intros fi [<-|[<-|[<-|[]]]]; reflexivity))).
  exact (fun ps => settle_all_keeps_reasons ps).
Defined.

Lemma helper_throws_what_an_adjustment_threw_witness :
  In (Throw (MedusaError NOT_FOUND "Variant was not found"))
     (adjust_outcomes (productVariantInventoryService (container (Some tt)))
        (value "loc_1") (items ful_4) db0) /\
  exists (fi : FulfillmentItem) (w' : World),
    In fi (items ful_4) /\
    fst (inventory_adjust (variant_id (item fi)) (value "loc_1")
           (quantity fi) w') =
    Throw (MedusaError NOT_FOUND "Variant was not found").
Proof.
  exact (@helper_throws_what_an_adjustment_threw platform
           (productVariantInventoryService (container (Some tt)))
           ful_4
           {| committed := db0; pending := Some db0; trace := [] |}
           TransactionManager db0
           (fun ps => settle_all_keeps_reasons ps) eq_refl).
Defined.

Lemma failed_reload_keeps_the_cancellation_witness :
  let run := handler (request_reload_fails "order_1" "ful_1") (initial db0) in
  fst run = Throw (MedusaError DB_ERROR "connection lost") /\
  committed (snd run) =
  {| fulfillments := fulfillments db0;
     canceled := ["ful_1"];
     adjusted := [("variant_a", "loc_1", 2%Z); ("variant_b", "loc_1", 0%Z)]
  |} /\
  In TransactionCommit (trace (snd run)) /\
  ~ In TransactionRollback (trace (snd run)) /\
  filter is_response (trace (snd run)) = [].
Proof.
  apply (failed_reload_keeps_the_cancellation
           (request_reload_fails "order_1" "ful_1")
           db0 db0 (db_canceled "ful_1") (db_canceled "ful_1")
           {| fulfillments := fulfillments db0;
              canceled := ["ful_1"];
              adjusted := [("variant_a", "loc_1", 2%Z);
                           ("variant_b", "loc_1", 0%Z)] |}
           (bare ful_1) ful_1 ("order", ["ful_1"])
           (MedusaError DB_ERROR "connection lost"));
    reflexivity.
Defined.


